(** * Secure-file sub-client of the Cerberus Go client

    A shallow embedding of [cerberus/securefile.go] (both snapshots of the
    file: the one whose [List] takes no argument and the one whose [List]
    takes a root path), with the parts of Go's standard library the code
    calls: [path.Clean], [path.Join], [filepath.Join], [filepath.Base] and
    the [mime/multipart] writer.

    Go strings are byte sequences: they are modelled by [string], one
    [ascii] per byte. *)

From Stdlib Require Import ZArith Ascii String List Bool Lia.
From Stdlib Require Import Numbers.DecimalString.
From stdpp Require Import base gmap strings list.

Local Open Scope string_scope.
Local Open Scope Z_scope.

(** ** Bytes and small string helpers *)

Definition slash : ascii := "/"%char.
Definition dot : ascii := "."%char.

(** [s + string(c)] *)
Definition snoc (s : string) (c : ascii) : string := s ++ String c EmptyString.

(** [s[0] == '/'] guarded by [len(s) > 0]. *)
Definition starts_with_slash (s : string) : bool :=
  match s with
  | String c _ => Ascii.eqb c slash
  | EmptyString => false
  end.

(** [r == n || path[r] == '/'] for the suffix [s = path[r:]]. *)
Definition at_end_or_slash (s : string) : bool :=
  match s with
  | EmptyString => true
  | String c _ => Ascii.eqb c slash
  end.

(** [s[i]], with the zero byte out of range (never read there). *)
Definition byte_at (s : string) (i : nat) : ascii :=
  match String.get i s with
  | Some c => c
  | None => Ascii.zero
  end.

(** [s[:n]] *)
Definition take (n : nat) (s : string) : string := String.substring 0 n s.

(** ** Package [path] (and [path/filepath] on Unix) *)

Module path.

(** The inner loop of the [..] case of [Clean]:
    [for out.w > dotdot && out.index(out.w) != '/' { out.w-- }]. *)
Fixpoint backtrack (buf : string) (dotdot : nat) (w : nat) : nat :=
  match w with
  | O => O
  | S w' =>
      if (dotdot <? w)%nat && negb (Ascii.eqb (byte_at buf w) slash)
      then backtrack buf dotdot w'
      else w
  end.

(** The main loop of [Clean]. The code reads [path] at index [r] and
    writes to the buffer [out], whose length is [out.w]; here [s] is the
    unread suffix [path[r:]] and [out] the bytes written so far, so
    [out.w] is [String.length out]. [dotdot] is the index in [out] where
    [..] must stop.  The copy of a real path element is the inner
    [for ; r < n && path[r] != '/'; r++] loop. *)
Fixpoint clean_loop (rooted : bool) (s : string) (out : string) (dotdot : nat)
    {struct s} : string :=
  match s with
  | EmptyString => out
  | String c s1 =>
      if Ascii.eqb c slash then
        (* empty path element *)
        clean_loop rooted s1 out dotdot
      else if Ascii.eqb c dot && at_end_or_slash s1 then
        (* . element *)
        clean_loop rooted s1 out dotdot
      else
        let real_element :=
          (* real path element: add slash if needed, copy element *)
          let out1 :=
            if rooted && negb (String.length out =? 1)%nat
               || negb rooted && negb (String.length out =? 0)%nat
            then snoc out slash else out in
          (fix copy (t : string) (o : string) {struct t} : string :=
             match t with
             | EmptyString => o
             | String d t1 =>
                 if Ascii.eqb d slash then clean_loop rooted t o dotdot
                 else copy t1 (snoc o d)
             end) s1 (snoc out1 c) in
        match s1 with
        | String c1 s2 =>
            if Ascii.eqb c dot && Ascii.eqb c1 dot && at_end_or_slash s2 then
              (* .. element: remove to last / *)
              if (dotdot <? String.length out)%nat then
                (* can backtrack *)
                let w := backtrack out dotdot (String.length out - 1) in
                clean_loop rooted s2 (take w out) dotdot
              else if negb rooted then
                (* cannot backtrack, but not rooted, so append .. element *)
                let out1 :=
                  if negb (String.length out =? 0)%nat
                  then snoc out slash else out in
                let out2 := snoc (snoc out1 dot) dot in
                clean_loop rooted s2 out2 (String.length out2)
              else
                clean_loop rooted s2 out dotdot
            else real_element
        | EmptyString => real_element
        end
  end.

(** [func Clean(path string) string] *)
Definition Clean (p : string) : string :=
  match p with
  | EmptyString => "."
  | String c rest =>
      let rooted := Ascii.eqb c slash in
      let out :=
        if rooted
        then clean_loop true rest "/" 1
        else clean_loop false p EmptyString 0 in
      (* Turn empty string into "." *)
      if (String.length out =? 0)%nat then "." else out
  end.

(** [strings.Join(elem, "/")] *)
Fixpoint join_slash (elem : list string) : string :=
  match elem with
  | [] => EmptyString
  | [e] => e
  | e :: rest => e ++ String slash (join_slash rest)
  end.

(** [func Join(elem ...string) string]: the elements from the first
    non-empty one on are joined with slashes and cleaned; all empty gives
    the empty string. *)
Fixpoint Join (elem : list string) : string :=
  match elem with
  | [] => EmptyString
  | e :: rest =>
      if String.eqb e EmptyString then Join rest
      else Clean (join_slash elem)
  end.

End path.

Module filepath.

(** On Unix the separator is the slash and volume names are empty, so
    [filepath.Clean] runs the loop of [path.Clean] and [filepath.Join] is
    [Clean(strings.Join(elem[i:], "/"))] from the first non-empty
    element [i]. *)
Definition Clean : string -> string := path.Clean.
Definition Join : list string -> string := path.Join.

(** [for len(path) > 0 && os.IsPathSeparator(path[len(path)-1])
      { path = path[0 : len(path)-1] }] *)
Fixpoint strip_trailing_slashes (p : string) : string :=
  match p with
  | EmptyString => EmptyString
  | String c rest =>
      match strip_trailing_slashes rest with
      | EmptyString =>
          if Ascii.eqb c slash then EmptyString else String c EmptyString
      | String _ _ as r => String c r
      end
  end.

(** [path[i+1:]] for the last index [i] holding a separator, the whole
    of [path] when there is none; [acc] is the text read since the last
    separator. *)
Fixpoint last_element (p : string) (acc : string) : string :=
  match p with
  | EmptyString => acc
  | String c rest =>
      if Ascii.eqb c slash then last_element rest EmptyString
      else last_element rest (snoc acc c)
  end.

(** [func Base(path string) string] *)
Definition Base (p : string) : string :=
  if String.eqb p EmptyString then "."
  else
    let p1 := strip_trailing_slashes p in
    let p2 := last_element p1 EmptyString in
    (* If empty now, it had only slashes. *)
    if String.eqb p2 EmptyString then "/" else p2.

End filepath.

(** ** Results, streams and formatting *)

(** A Go pair [(value, error)] of which exactly one is meaningful. An
    [error] is modelled by its message, the text of [err.Error()]. *)
Inductive result (A : Type) : Type :=
| Ok (a : A)
| Err (e : string).
Arguments Ok {A} a.
Arguments Err {A} e.

(** An [io.Reader] read to its end: the bytes it delivers, and the error
    that ends the read when it is not [io.EOF]. *)
Record Stream : Type := mkStream {
  data : string;
  fault : option string
}.

(** The [%d] verb of [fmt] on an [int]. *)
Definition itoa (z : Z) : string := NilZero.string_of_int (Z.to_int z).

Definition CR : ascii := "013"%char.
Definition LF : ascii := "010"%char.
Definition CRLF : string := String CR (String LF EmptyString).
Definition dquote : ascii := "034"%char.
Definition backslash : ascii := "092"%char.

(** ** Package [mime/multipart]: the writer, over a [bytes.Buffer] *)

Module multipart.

(** [type Writer struct { w io.Writer; boundary string; lastpart *part }]
    with [w] a [bytes.Buffer], held as the bytes written to it;
    [lastpart] tells whether a part is open. *)
Record Writer : Type := mkWriter {
  buf : string;
  boundary : string;
  lastpart : bool
}.

(** [NewWriter(w)]; the boundary is [randomBoundary()], given here. *)
Definition NewWriter (boundary : string) : Writer :=
  mkWriter EmptyString boundary false.

(** [quoteEscaper.Replace(s)]: a backslash before every backslash and
    every double quote. *)
Fixpoint escapeQuotes (s : string) : string :=
  match s with
  | EmptyString => EmptyString
  | String c rest =>
      if Ascii.eqb c backslash || Ascii.eqb c dquote
      then String backslash (String c (escapeQuotes rest))
      else String c (escapeQuotes rest)
  end.

(** One header line, [fmt.Fprintf(&b, "%s: %s\r\n", k, v)]. *)
Definition header_line (k v : string) : string := k ++ ": " ++ v ++ CRLF.

Fixpoint header_lines (h : list (string * string)) : string :=
  match h with
  | [] => EmptyString
  | (k, v) :: rest => header_line k v ++ header_lines rest
  end.

(** [func (w *Writer) CreatePart(header)]: closes the open part if any,
    writes the delimiter line, the header lines in key order and an
    empty line. [header] lists the keys in sorted order. Writing to a
    [bytes.Buffer] has no error. *)
Definition CreatePart (w : Writer) (header : list (string * string))
    : result Writer :=
  let delim :=
    if lastpart w
    then CRLF ++ "--" ++ boundary w ++ CRLF
    else "--" ++ boundary w ++ CRLF in
  Ok (mkWriter (buf w ++ delim ++ header_lines header ++ CRLF)
               (boundary w) true).

(** [func (w *Writer) CreateFormFile(fieldname, filename string)] *)
Definition CreateFormFile (w : Writer) (fieldname filename : string)
    : result Writer :=
  CreatePart w
    [ ("Content-Disposition",
       "form-data; name=" ++ String dquote (escapeQuotes fieldname)
         ++ String dquote ("; filename=" ++ String dquote
              (escapeQuotes filename) ++ String dquote EmptyString));
      ("Content-Type", "application/octet-stream") ].

(** [func (p *part) Write(d []byte)] for the part last created: refused
    once the part is closed. *)
Definition part_Write (w : Writer) (d : string) : result Writer :=
  if lastpart w
  then Ok (mkWriter (buf w ++ d) (boundary w) true)
  else Err "multipart: can't write to finished part".

(** [func (w *Writer) FormDataContentType() string] *)
Definition FormDataContentType (w : Writer) : string :=
  "multipart/form-data; boundary=" ++ boundary w.

(** [func (w *Writer) Close() error]: closes the open part and writes
    the trailing boundary line. *)
Definition Close (w : Writer) : result Writer :=
  Ok (mkWriter (buf w ++ CRLF ++ "--" ++ boundary w ++ "--" ++ CRLF)
               (boundary w) false).

End multipart.

(** [io.Copy(part, file)]: every byte the reader delivers is written to
    the part; the first error of either side is returned. *)
Definition io_Copy_part (w : multipart.Writer) (src : Stream)
    : result multipart.Writer :=
  match multipart.part_Write w (data src) with
  | Err e => Err e
  | Ok w1 =>
      match fault src with
      | Some e => Err e
      | None => Ok w1
      end
  end.


(** ** The data of package [api] and of the transport *)

(** [time.Time], an instant designated by its RFC 3339 text. *)
Definition Time : Type := string.

(** Modelled from the spec: the declaration of [api.SecureFileSummary] is
    not among the sources. The fields are those of the spec's data model,
    under the names the tests build the expected response with. *)
Record SecureFileSummary : Type := mkSummary {
  SDBID : string;
  Path : string;
  Size : Z;
  Name : string;
  CreatedBy : string;
  Created : Time;
  LastUpdatedBy : string;
  LastUpdated : Time
}.

(** Modelled from the spec: the declaration of [api.SecureFilesResponse]
    is not among the sources. The fields are those of the spec's data
    model, under the names the tests build the expected response with;
    [NextOffset] is a number there. *)
Record SecureFilesResponse : Type := mkSecureFilesResponse {
  HasNext : bool;
  NextOffset : Z;
  Limit : Z;
  Offset : Z;
  ResultCount : Z;
  TotalCount : Z;
  Summaries : list SecureFileSummary
}.

(** [http.Response], as far as the code reads it. The keys of [Header]
    are in canonical form, as [net/http] stores them. *)
Record Response : Type := mkResponse {
  StatusCode : Z;
  Header : gmap string (list string);
  Body : Stream
}.

(** [func (h Header) Get(key string) string]: the first value of the key,
    the empty string when there is none. The one key the code asks for,
    [Content-Disposition], is its own canonical form. *)
Definition Header_Get (h : gmap string (list string)) (key : string) : string :=
  match h !! key with
  | Some (v :: _) => v
  | _ => EmptyString
  end.

Definition MethodGet : string := "GET".
Definition MethodPost : string := "POST".
Definition StatusOK : Z := 200.
Definition StatusNoContent : Z := 204.

(** A call of the [Client] collaborator; [DoRequest] is always called
    with [nil] data. *)
Inductive Call : Type :=
| CallDoRequest (method url : string) (params : gmap string string)
| CallDoRequestWithBody (method url : string) (params : gmap string string)
    (contentType body : string).

(** What an operation can change: the local files, by the path they are
    opened with, each with what reading it delivers; and the calls made
    to the transport, oldest first. *)
Record World : Type := mkWorld {
  files : gmap string Stream;
  calls : list Call
}.

Definition record_call (c : Call) (w : World) : World :=
  mkWorld (files w) (calls w ++ [c]).

Definition write_file (p : string) (content : string) (w : World) : World :=
  mkWorld (<[p := mkStream content None]> (files w)) (calls w).

(** [os.Open(name)]: the files of the world are those that can be opened. *)
Definition os_Open (name : string) (w : World) : result Stream :=
  match files w !! name with
  | Some f => Ok f
  | None => Err ("open " ++ name ++ ": no such file or directory")
  end.

(** ** [cerberus/securefile.go] *)

Definition secureFileBasePath : string := "/v1/secure-file".
Definition secureFileListBasePath : string := "/v1/secure-files".

Section SecureFile.

(** The [Client] collaborator, not among the sources: [r.c.DoRequest]
    and [r.c.DoRequestWithBody] answer with a response or an error. *)
Variable DoRequest : string -> string -> gmap string string -> result Response.
Variable DoRequestWithBody :
  string -> string -> gmap string string -> string -> string -> result Response.

(** [parseResponse(resp.Body, sfr)] of package [cerberus], not among
    the sources: the response it fills in, or its error. *)
Variable parseResponse : Stream -> result SecureFilesResponse.

(** [mime.ParseMediaType] of Go's standard library: the media type and
    its parameters, or an error. *)
Variable mime_ParseMediaType : string -> result (string * gmap string string).

(** The verdict of the operating system on [os.Create(name)]: its error,
    if it refuses (missing directory, permissions, a directory in the
    way). *)
Variable os_Create_error : gmap string Stream -> string -> option string.

(** The boundary [multipart.NewWriter] draws with [randomBoundary()]. *)
Variable randomBoundary : string.

(** [os.Create(name)]: creates or truncates the named file. *)
Definition os_Create (name : string) (w : World) : result World :=
  match os_Create_error (files w) name with
  | Some e => Err e
  | None => Ok (write_file name EmptyString w)
  end.

(** [io.Copy(out, resp.Body)] into the file created at [name]: the bytes
    the body delivers are written, and the error that ends the body, if
    any, is returned. Writes to the created file are taken to succeed. *)
Definition io_Copy_file (name : string) (src : Stream) (w : World)
    : option string * World :=
  (fault src, write_file name (data src) w).

(** [func (r *SecureFile) List()], the snapshot of the file without a
    root path; it returns a pointer to an [api.SecureFilesResponse] and an
    error. *)
Definition List_pathless (w : World) : result SecureFilesResponse * World :=
  let w := record_call (CallDoRequest MethodGet secureFileListBasePath ∅) w in
  match DoRequest MethodGet secureFileListBasePath ∅ with
  | Err err => (Err ("error while trying to get secure files: " ++ err), w)
  | Ok resp =>
      if negb (StatusCode resp =? StatusOK) then
        (Err ("error while trying to list secure f. Got HTTP status code "
                ++ itoa (StatusCode resp)), w)
      else
        match parseResponse (Body resp) with
        | Err err => (Err err, w)
        | Ok sfr => (Ok sfr, w)
        end
  end.

(** [func (r *SecureFile) List(rootpath string)], with the same result
    type. *)
Definition List (rootpath : string) (w : World)
    : result SecureFilesResponse * World :=
  let url := path.Join [secureFileListBasePath; rootpath] in
  let w := record_call (CallDoRequest MethodGet url ∅) w in
  match DoRequest MethodGet url ∅ with
  | Err err => (Err ("error while trying to get secure files: " ++ err), w)
  | Ok resp =>
      if negb (StatusCode resp =? StatusOK) then
        (Err ("error while trying to list secure files. Got HTTP status code "
                ++ itoa (StatusCode resp)), w)
      else
        match parseResponse (Body resp) with
        | Err err => (Err err, w)
        | Ok sfr => (Ok sfr, w)
        end
  end.

(** [func (r *SecureFile) Get(secureFilePath string, localpath string)
      error]; the result is [None] for [nil]. The two deferred [Close]
    release the body and the file, and change nothing of the world. *)
Definition Get (secureFilePath localpath : string) (w : World)
    : option string * World :=
  let url := path.Join [secureFileBasePath; secureFilePath] in
  let w := record_call (CallDoRequest MethodGet url ∅) w in
  match DoRequest MethodGet url ∅ with
  | Err err => (Some ("error while downloading secure file: " ++ err), w)
  | Ok resp =>
      if negb (StatusCode resp =? StatusOK) then
        (Some ("error while trying to download secure file " ++ secureFilePath
                 ++ ". Got HTTP status code " ++ itoa (StatusCode resp)), w)
      else
        (* Get filename *)
        let contentDisposition := Header_Get (Header resp) "Content-Disposition" in
        match mime_ParseMediaType contentDisposition with
        | Err err => (Some ("error parsing secure file header: " ++ err), w)
        | Ok (_, dispositionParams) =>
            match dispositionParams !! "filename" with
            | None => (Some "no filename present in securefile header", w)
            | Some localfile =>
                (* create output *)
                let name := filepath.Join [localpath; localfile] in
                match os_Create name w with
                | Err err =>
                    (Some ("error creating localfile " ++ localfile ++ ": " ++ err), w)
                | Ok w1 =>
                    (* Copy *)
                    io_Copy_file name (Body resp) w1
                end
            end
        end
  end.

(** [func getUploadFileBodyWriter(localfile string)
      (io.Reader, string, error)]: the body and the content type. *)
Definition getUploadFileBodyWriter (localfile : string) (w : World)
    : result (string * string) :=
  match os_Open localfile w with
  | Err err => Err err
  | Ok file =>
      (* Create mpart *)
      let mw := multipart.NewWriter randomBoundary in
      let filename := filepath.Base localfile in
      match multipart.CreateFormFile mw "file-content" filename with
      | Err err => Err err
      | Ok part =>
          (* Copy file *)
          match io_Copy_part part file with
          | Err err => Err err
          | Ok mw1 =>
              (* save content type of the body *)
              let contentType := multipart.FormDataContentType mw1 in
              (* close to flush mpart *)
              match multipart.Close mw1 with
              | Err err => Err err
              | Ok mw2 => Ok (multipart.buf mw2, contentType)
              end
          end
      end
  end.

(** [func (r *SecureFile) Put(secureFilePath string, localfile string)
      error] *)
Definition Put (secureFilePath localfile : string) (w : World)
    : option string * World :=
  (* Create multipart body and content type *)
  match getUploadFileBodyWriter localfile w with
  | Err err =>
      (Some ("error creating upload body for " ++ localfile ++ " file: " ++ err), w)
  | Ok (body, contentType) =>
      (* Send request *)
      let url := path.Join [secureFileBasePath; secureFilePath] in
      let w := record_call
                 (CallDoRequestWithBody MethodPost url ∅ contentType body) w in
      match DoRequestWithBody MethodPost url ∅ contentType body with
      | Err err => (Some ("error while downloading secure file: " ++ err), w)
      | Ok resp =>
          (* expected sucess reply is no content *)
          if negb (StatusCode resp =? StatusNoContent) then
            (Some ("error while trying to download secure file " ++ secureFilePath
                     ++ ". Got HTTP status code " ++ itoa (StatusCode resp)), w)
          else (None, w)
      end
  end.

End SecureFile.


(** ** Vocabulary of the properties *)

(** The value of a result, its error message forgotten. *)
Definition value_of {A : Type} (r : result A) : option A :=
  match r with
  | Ok a => Some a
  | Err _ => None
  end.

(** The two errors [Get] reports for a response it cannot take a file
    name from: the header does not parse, or has no [filename]. *)
Definition malformed_response_error (e : string) : Prop :=
  (exists cause, e = "error parsing secure file header: " ++ cause)
  \/ e = "no filename present in securefile header".

(** The error of [Get] and [Put] for an unexpected status: it carries the
    remote path and the status code. *)
Definition unexpected_status_error (secureFilePath : string) (code : Z) : string :=
  "error while trying to download secure file " ++ secureFilePath
    ++ ". Got HTTP status code " ++ itoa code.

(** The response has no usable [filename]: its [Content-Disposition]
    header does not parse, or parses without that parameter. *)
Definition lacks_filename
    (mime_ParseMediaType : string -> result (string * gmap string string))
    (resp : Response) : Prop :=
  match mime_ParseMediaType (Header_Get (Header resp) "Content-Disposition") with
  | Err _ => True
  | Ok (_, params) => params !! "filename" = None
  end.

(** [p] lies below the directory [dir]: it extends [dir] by a slash and
    more. *)
Definition below_directory (dir p : string) : bool :=
  String.prefix (dir ++ "/") p.

(** A file part of a form: field name, file name, content. *)
Record FormFile : Type := mkFormFile {
  field_name : string;
  file_name : string;
  content : string
}.

(** The wire format of one file part: the delimiter line (after a line
    break, except for the first part), the two header lines, an empty
    line and the content. *)
Definition encode_part (boundary : string) (first : bool) (p : FormFile) : string :=
  (if first then EmptyString else CRLF)
  ++ "--" ++ boundary ++ CRLF
  ++ "Content-Disposition: form-data; name="
  ++ String dquote (multipart.escapeQuotes (field_name p))
  ++ String dquote ("; filename=" ++ String dquote
       (multipart.escapeQuotes (file_name p)) ++ String dquote CRLF)
  ++ "Content-Type: application/octet-stream" ++ CRLF
  ++ CRLF
  ++ content p.

Fixpoint encode_parts (boundary : string) (first : bool) (ps : list FormFile)
    : string :=
  match ps with
  | [] => EmptyString
  | p :: rest => encode_part boundary first p ++ encode_parts boundary false rest
  end.

(** The wire format of a finished multipart form with the parts [ps]:
    the parts, then the trailing boundary line. *)
Definition encode_form (boundary : string) (ps : list FormFile) : string :=
  encode_parts boundary true ps ++ CRLF ++ "--" ++ boundary ++ "--" ++ CRLF.

(** ** The servers and files of the tests *)

Module Fixture.

(** [strings.TrimPrefix], telling whether the prefix was there. *)
Fixpoint drop_prefix (pre s : string) : option string :=
  match pre, s with
  | EmptyString, _ => Some s
  | String a pre', String b s' =>
      if Ascii.eqb a b then drop_prefix pre' s' else None
  | String _ _, EmptyString => None
  end.

(** The text before a closing double quote that ends [s]. *)
Fixpoint drop_closing_quote (s : string) : option string :=
  match s with
  | EmptyString => None
  | String c EmptyString =>
      if Ascii.eqb c dquote then Some EmptyString else None
  | String c rest =>
      match drop_closing_quote rest with
      | Some r => Some (String c r)
      | None => None
      end
  end.

(** The header value the test server sets:
    [fmt.Sprintf(`attachment; filename="%s"`, filename)]. *)
Definition attachment (filename : string) : string :=
  "attachment; filename=" ++ String dquote (filename ++ String dquote EmptyString).

(** The answers of [mime.ParseMediaType] on the header values of the
    tests: no header, [attachment] alone, and [attachment] with a quoted
    file name free of quotes and backslashes. *)
Definition ParseMediaType (v : string) : result (string * gmap string string) :=
  if String.eqb v EmptyString then Err "mime: no media type"
  else if String.eqb v "attachment" then Ok ("attachment", ∅)
  else
    match drop_prefix ("attachment; filename=" ++ String dquote EmptyString) v with
    | Some rest =>
        match drop_closing_quote rest with
        | Some name => Ok ("attachment", {[ "filename" := name ]})
        | None => Err "mime: invalid media parameter"
        end
    | None => Err "mime: invalid media parameter"
    end.

(** The handler of [withBinaryTestServer]: every request is answered
    with [returnCode], the two headers and [body]. *)
Definition binaryTestServer (returnCode : Z) (filename body : string)
    : string -> string -> gmap string string -> result Response :=
  fun _ _ _ =>
    Ok (mkResponse returnCode
          {[ "Content-Type" := ["application/octet-stream"];
             "Content-Disposition" := [attachment filename] ]}
          (mkStream body None)).

(** A server that answers with a status and no headers, whatever the
    request; with and without a request body. *)
Definition plainServer (returnCode : Z)
    : string -> string -> gmap string string -> result Response :=
  fun _ _ _ => Ok (mkResponse returnCode ∅ (mkStream EmptyString None)).

Definition uploadServer (returnCode : Z)
    : string -> string -> gmap string string -> string -> string -> result Response :=
  fun _ _ _ _ _ => Ok (mkResponse returnCode ∅ (mkStream EmptyString None)).

(** An operating system that lets every file be created. *)
Definition permissive : gmap string Stream -> string -> option string :=
  fun _ _ => None.

(** The temporary directory of [TestSecureFileGet]. *)
Definition tempdir : string := "/tmp/testing".

Definition empty_world : World := mkWorld ∅ [].

(** A world whose one local file is [/home/me/secret.txt]. *)
Definition secret_world : World :=
  mkWorld {[ "/home/me/secret.txt" := mkStream "s3cr3t" None ]} [].

Definition boundary : string :=
  "0123456789abcdef0123456789abcdef0123456789abcdef0123456789ab".

End Fixture.


(** ** Vocabulary of the path properties *)

(** The copy loop of [path.Clean]'s real-element case, from the suffix
    [t] on: the bytes up to the next slash go to the buffer, and the main
    loop resumes at that slash. *)
Definition copy_element (rooted : bool) (dotdot : nat)
    : string -> string -> string :=
  fix copy (t : string) (o : string) {struct t} : string :=
    match t with
    | EmptyString => o
    | String d t1 =>
        if Ascii.eqb d slash then path.clean_loop rooted t o dotdot
        else copy t1 (snoc o d)
    end.

(** [strings.Split(s, "/")]: the path elements of [s], the empty ones
    included. *)
Fixpoint elements (s : string) : list string :=
  match s with
  | EmptyString => [EmptyString]
  | String c rest =>
      if Ascii.eqb c slash then EmptyString :: elements rest
      else
        match elements rest with
        | e :: l => String c e :: l
        | [] => [String c EmptyString]
        end
  end.

(** A real path element is neither empty nor the single dot. *)
Definition is_real (e : string) : bool :=
  negb (String.eqb e EmptyString) && negb (String.eqb e ".").

Definition real_elements (s : string) : list string :=
  List.filter is_real (elements s).

(** Some element of [s] is the parent directory [..]. *)
Definition has_dotdot (s : string) : bool :=
  existsb (String.eqb "..") (elements s).

(** Every element preceded by a slash. *)
Fixpoint slashed (l : list string) : string :=
  match l with
  | [] => EmptyString
  | e :: rest => String slash e ++ slashed rest
  end.

(** The byte [/] occurs in [s]. *)
Fixpoint has_slash (s : string) : bool :=
  match s with
  | EmptyString => false
  | String c rest => Ascii.eqb c slash || has_slash rest
  end.



(** ** The list response on the wire *)

Module Wire.

(** Modelled from the spec: package [api] and [parseResponse] are not
    among the sources. One entry of [secure_file_summaries] in the JSON
    body of the wire contract. *)
Record Summary : Type := mkSummary {
  sdbox_id : string;
  path : string;
  size_in_bytes : Z;
  name : string;
  created_by : string;
  created_ts : Time;
  last_updated_by : string;
  last_updated_ts : Time
}.

(** Modelled from the spec: package [api] and [parseResponse] are not
    among the sources. The JSON body of a list response, as the wire
    contract gives it; [next_offset] is an integer or [null]. *)
Record ListReply : Type := mkListReply {
  has_next : bool;
  next_offset : option Z;
  limit : Z;
  offset : Z;
  file_count_in_result : Z;
  total_file_count : Z;
  secure_file_summaries : list Summary
}.

End Wire.

(** Modelled from the spec: the decoding of one summary, which
    [parseResponse] (not among the sources) does field by field. *)
Definition decodeSummary (d : Wire.Summary) : SecureFileSummary :=
  mkSummary (Wire.sdbox_id d) (Wire.path d) (Wire.size_in_bytes d)
    (Wire.name d) (Wire.created_by d) (Wire.created_ts d)
    (Wire.last_updated_by d) (Wire.last_updated_ts d).

(** Modelled from the spec: the decoding of a list response into
    [api.SecureFilesResponse], which [parseResponse] (not among the
    sources) does field by field. [NextOffset] is a number: a [null]
    leaves it zero, as the expected response of [TestSecureFileList]
    shows. Nothing is checked. *)
Definition decodeListReply (d : Wire.ListReply) : SecureFilesResponse :=
  mkSecureFilesResponse (Wire.has_next d)
    (match Wire.next_offset d with Some n => n | None => 0 end)
    (Wire.limit d) (Wire.offset d)
    (Wire.file_count_in_result d) (Wire.total_file_count d)
    (List.map decodeSummary (Wire.secure_file_summaries d)).






Module WireFixture.

(** [secureFileListReply] of the tests. *)
Definition secureFileListReply : Wire.ListReply :=
  Wire.mkListReply false None 1000 0 1 1
    [ Wire.mkSummary "3f40b0ca-f7e4-4e38-bf1f-c36e05e1856f"
        "godmiljaar/README.md" 3296 "README.md"
        "pierre.poissinger@nike.com" "2018-06-14T10:34:55.057Z"
        "pierre.poissinger@nike.com" "2018-06-14T10:34:55.057Z" ].

(** [expectedResponse] of the tests. *)
Definition expectedResponse : SecureFilesResponse :=
  mkSecureFilesResponse false 0 1000 0 1 1
    [ mkSummary "3f40b0ca-f7e4-4e38-bf1f-c36e05e1856f"
        "godmiljaar/README.md" 3296 "README.md"
        "pierre.poissinger@nike.com" "2018-06-14T10:34:55.057Z"
        "pierre.poissinger@nike.com" "2018-06-14T10:34:55.057Z" ].


End WireFixture.


(** ** Faulty servers and files *)

Module Faults.

(** A server whose 200 answer names [filename] and whose body breaks off
    with [err] after the bytes [body]. *)
Definition brokenBodyServer (filename body err : string)
    : string -> string -> gmap string string -> result Response :=
  fun _ _ _ =>
    Ok (mkResponse 200
          {[ "Content-Type" := ["application/octet-stream"];
             "Content-Disposition" := [Fixture.attachment filename] ]}
          (mkStream body (Some err))).

(** A transport that cannot reach its host. *)
Definition unreachable (err : string)
    : string -> string -> gmap string string -> result Response :=
  fun _ _ _ => Err err.

(** An operating system that refuses to create the file [name]. *)
Definition refusing (name err : string)
    : gmap string Stream -> string -> option string :=
  fun _ n => if String.eqb n name then Some err else None.

End Faults.

(** ** Vocabulary of the rooted paths *)

(** The elements a rooted path comes down to, read from left to right
    onto the elements [stack] kept so far: an empty or single-dot element
    changes nothing, [..] drops the last element kept (none at the root),
    any other element is kept. *)
Fixpoint resolve (stack : list string) (els : list string) : list string :=
  match els with
  | [] => stack
  | e :: rest =>
      if negb (is_real e) then resolve stack rest
      else if String.eqb ".." e then resolve (removelast stack) rest
      else resolve (stack ++ [e]) rest
  end.

(** The rooted path of the elements [l]: each after a slash, the root
    alone when there is none. *)
Definition rooted_form (l : list string) : string :=
  match l with
  | [] => "/"
  | _ :: _ => slashed l
  end.

(** An element as [path.Clean] keeps it: real, other than [..], without
    a slash. *)
Definition is_kept (e : string) : bool :=
  is_real e && negb (String.eqb ".." e) && negb (has_slash e).

(** The elements kept in the buffer of [path.Clean]: none is empty, none
    holds a slash. *)
Definition stack_ok (l : list string) : Prop :=
  Forall (fun x => has_slash x = false /\ x <> EmptyString) l.

(** * Properties *)

(** ** Writing a file, recording a call *)

Lemma files_record_call c w : files (record_call c w) = files w.
Proof. reflexivity. Qed.

Lemma calls_write_file p b w : calls (write_file p b w) = calls w.
Proof. reflexivity. Qed.

Lemma write_file_twice p a b w :
  write_file p b (write_file p a w) = write_file p b w.
Proof.
  unfold write_file; cbn. f_equal. apply insert_insert_eq.
Qed.

Lemma status_is (code expected : Z) :
  code = expected -> negb (code =? expected) = false.
Proof. intros ->. now rewrite Z.eqb_refl. Qed.

Lemma status_is_not (code expected : Z) :
  code <> expected -> negb (code =? expected) = true.
Proof. intros H. apply Z.eqb_neq in H. now rewrite H. Qed.


(** ** Strings *)

Lemma append_cons c (a b : string) : String c a ++ b = String c (a ++ b).
Proof. reflexivity. Qed.

Lemma append_nil_l (a : string) : EmptyString ++ a = a.
Proof. reflexivity. Qed.

Lemma append_nil_r (a : string) : a ++ EmptyString = a.
Proof. induction a as [|c a IH]; [reflexivity|]. now rewrite append_cons, IH. Qed.

Lemma append_assoc (a b c : string) : (a ++ b) ++ c = a ++ b ++ c.
Proof.
  induction a as [|x a IH]; [reflexivity|]. now rewrite !append_cons, IH.
Qed.

Lemma length_append (a b : string) :
  String.length (a ++ b) = (String.length a + String.length b)%nat.
Proof.
  induction a as [|x a IH]; [reflexivity|].
  rewrite append_cons. cbn. now rewrite IH.
Qed.

Lemma length_snoc (a : string) c : String.length (snoc a c) = S (String.length a).
Proof. unfold snoc. rewrite length_append. cbn. lia. Qed.

Lemma snoc_append (a : string) c (b : string) : snoc a c ++ b = a ++ String c b.
Proof. unfold snoc. now rewrite append_assoc. Qed.


Lemma prefix_append (a b : string) : String.prefix a (a ++ b) = true.
Proof.
  induction a as [|c a IH]; [now destruct b|].
  rewrite append_cons. cbn [String.prefix].
  now destruct (ascii_dec c c).
Qed.

(** ** [filepath.Base] *)

Lemma has_slash_snoc a c : has_slash (snoc a c) = has_slash a || Ascii.eqb c slash.
Proof.
  unfold snoc. induction a as [|x a IH].
  - rewrite append_nil_l. cbn [has_slash]. now rewrite orb_false_r.
  - rewrite append_cons. cbn [has_slash]. rewrite IH. now rewrite orb_assoc.
Qed.



Lemma last_element_plain name acc :
  has_slash name = false -> filepath.last_element name acc = acc ++ name.
Proof.
  revert acc.
  induction name as [|c name IH]; intros acc Hname; cbn [filepath.last_element].
  - now rewrite append_nil_r.
  - cbn [has_slash] in Hname. apply orb_false_elim in Hname as [Hc Hname].
    rewrite Hc, IH by assumption. now rewrite snoc_append.
Qed.

Lemma last_element_append dir name acc :
  has_slash name = false ->
  filepath.last_element (dir ++ String slash name) acc = name.
Proof.
  intros Hname. revert acc.
  induction dir as [|c dir IH]; intros acc.
  - rewrite append_nil_l. cbn [filepath.last_element].
    change (Ascii.eqb slash slash) with true.
    cbn iota. now rewrite last_element_plain.
  - rewrite append_cons. cbn [filepath.last_element].
    destruct (Ascii.eqb c slash); apply IH.
Qed.

Lemma strip_trailing_slashes_plain name :
  has_slash name = false -> filepath.strip_trailing_slashes name = name.
Proof.
  induction name as [|c name IH]; intros Hname; [reflexivity|].
  cbn [has_slash] in Hname. apply orb_false_elim in Hname as [Hc Hname].
  cbn [filepath.strip_trailing_slashes]. rewrite IH by assumption.
  rewrite Hc. now destruct name.
Qed.

Lemma strip_trailing_slashes_append a name :
  name <> EmptyString -> has_slash name = false ->
  filepath.strip_trailing_slashes (a ++ name) = a ++ name.
Proof.
  intros Hne Hname. induction a as [|c a IH].
  - now apply strip_trailing_slashes_plain.
  - rewrite append_cons. cbn [filepath.strip_trailing_slashes]. rewrite IH.
    destruct (a ++ name) eqn:E; [|reflexivity].
    destruct a; [|discriminate]. now rewrite append_nil_l in E.
Qed.

(** The base name of a file in a directory is the file's name. *)
Lemma Base_strips_directory dir name :
  name <> EmptyString -> has_slash name = false ->
  filepath.Base (dir ++ "/" ++ name) = name.
Proof.
  intros Hne Hname. unfold filepath.Base.
  assert (String.eqb (dir ++ "/" ++ name) EmptyString = false) as ->.
  { apply String.eqb_neq. destruct dir; discriminate. }
  change ("/" ++ name) with (String slash name).
  replace (dir ++ String slash name) with (snoc dir slash ++ name)
    by apply snoc_append.
  rewrite strip_trailing_slashes_append by assumption.
  rewrite snoc_append, last_element_append by assumption.
  apply String.eqb_neq in Hne. now rewrite Hne.
Qed.


(** ** [path.Clean] on paths without parent-directory elements *)

Lemma clean_loop_unfold rooted c s1 out dotdot :
  path.clean_loop rooted (String c s1) out dotdot =
    if Ascii.eqb c slash then path.clean_loop rooted s1 out dotdot
    else if Ascii.eqb c dot && at_end_or_slash s1 then
      path.clean_loop rooted s1 out dotdot
    else
      let real_element :=
        copy_element rooted dotdot s1
          (snoc (if rooted && negb (String.length out =? 1)%nat
                    || negb rooted && negb (String.length out =? 0)%nat
                 then snoc out slash else out) c) in
      match s1 with
      | String c1 s2 =>
          if Ascii.eqb c dot && Ascii.eqb c1 dot && at_end_or_slash s2 then
            if (dotdot <? String.length out)%nat then
              path.clean_loop rooted s2
                (take (path.backtrack out dotdot (String.length out - 1)) out)
                dotdot
            else if negb rooted then
              let out2 :=
                snoc (snoc (if negb (String.length out =? 0)%nat
                            then snoc out slash else out) dot) dot in
              path.clean_loop rooted s2 out2 (String.length out2)
            else path.clean_loop rooted s2 out dotdot
          else real_element
      | EmptyString => real_element
      end.
Proof. reflexivity. Qed.

Lemma copy_element_unfold rooted dotdot d t1 o :
  copy_element rooted dotdot (String d t1) o =
    if Ascii.eqb d slash then path.clean_loop rooted (String d t1) o dotdot
    else copy_element rooted dotdot t1 (snoc o d).
Proof. reflexivity. Qed.

Lemma elements_cons_slash s : elements (String slash s) = EmptyString :: elements s.
Proof. reflexivity. Qed.

Lemma elements_nonempty s : exists e l, elements s = e :: l.
Proof.
  induction s as [|c s [e [l IH]]]; cbn; [now eexists; eexists|].
  destruct (Ascii.eqb c slash); [now eexists; eexists|].
  rewrite IH. now eexists; eexists.
Qed.

Lemma elements_cons_other c s e l :
  Ascii.eqb c slash = false -> elements s = e :: l ->
  elements (String c s) = String c e :: l.
Proof. intros Hc He. cbn. now rewrite Hc, He. Qed.

(** The first element is empty exactly when the path is empty or starts
    with a slash. *)
Lemma first_element_empty s e l :
  elements s = e :: l -> at_end_or_slash s = String.eqb e EmptyString.
Proof.
  destruct s as [|c s]; cbn.
  - now intros [= <- <-].
  - destruct (Ascii.eqb c slash).
    + now intros [= <- <-].
    + destruct (elements s); now intros [= <- <-].
Qed.

Lemma eqb_dotdot_cons c e :
  String.eqb ".." (String c e)
  = Ascii.eqb c dot
    && match e with
       | String c1 e1 => Ascii.eqb c1 dot && String.eqb e1 EmptyString
       | EmptyString => false
       end.
Proof.
  unfold dot. destruct (Ascii.eqb_spec c ".") as [->|Hc].
  - destruct e as [|c1 e1]; [reflexivity|].
    destruct (Ascii.eqb_spec c1 ".") as [->|Hc1].
    + now destruct e1.
    + apply String.eqb_neq. intros [= H]. congruence.
  - apply String.eqb_neq. intros [= H]. congruence.
Qed.

Lemma is_real_cons c e :
  is_real (String c e) = negb (Ascii.eqb c dot && String.eqb e EmptyString).
Proof.
  unfold is_real, dot. destruct (Ascii.eqb_spec c ".") as [->|Hc].
  - now destruct e.
  - assert (String.eqb (String c e) "." = false) as ->; [|reflexivity].
    apply String.eqb_neq. intros [= H]. congruence.
Qed.

Lemma slashed_cons e l : slashed (e :: l) = String slash (e ++ slashed l).
Proof. reflexivity. Qed.

(** Where the loop sees two dots and then the end or a slash, the element
    ahead is [..]. *)
Lemma dotdot_ahead c c1 s2 e1 l1 :
  elements (String c1 s2) = e1 :: l1 ->
  Ascii.eqb c dot && Ascii.eqb c1 dot && at_end_or_slash s2 = true ->
  String.eqb ".." (String c e1) = true.
Proof.
  intros He1 H.
  apply andb_prop in H as [Hcc Hend]. apply andb_prop in Hcc as [Hc0 Hc1].
  apply Ascii.eqb_eq in Hc1. subst c1.
  cbn in He1. change (Ascii.eqb dot slash) with false in He1.
  destruct (elements_nonempty s2) as [e2 [l2 He2]].
  rewrite He2 in He1. injection He1 as <- <-.
  rewrite (first_element_empty _ _ _ He2) in Hend.
  rewrite eqb_dotdot_cons, Hc0, Ascii.eqb_refl, Hend. reflexivity.
Qed.

Lemma join_slash_cons e l : path.join_slash (e :: l) = e ++ slashed l.
Proof.
  revert e. induction l as [|x l IH]; intros e.
  - cbn. now rewrite append_nil_r.
  - change (path.join_slash (e :: x :: l))
      with (e ++ String slash (path.join_slash (x :: l))).
    now rewrite IH.
Qed.

(** The loop of [Clean] with no [..] ahead, once the buffer holds more
    than the root: every real element is appended after a slash, the
    empty and single-dot elements are dropped. The second part is the
    same for the copy loop, in the middle of an element. *)
Lemma clean_loop_spec (rooted : bool) s :
  (forall out dotdot,
     String.length out <> (if rooted then 1 else 0)%nat ->
     has_dotdot s = false ->
     path.clean_loop rooted s out dotdot = out ++ slashed (real_elements s))
  /\ (forall o dotdot e l,
        ((if rooted then 1 else 0) < String.length o)%nat ->
        elements s = e :: l ->
        existsb (String.eqb "..") l = false ->
        copy_element rooted dotdot s o
          = o ++ e ++ slashed (List.filter is_real l)).
Proof.
  unfold has_dotdot, real_elements.
  induction s as [|c s1 [IHloop IHcopy]].
  - split.
    + intros out dd _ _. cbn. now rewrite append_nil_r.
    + intros o dd e l _ [= <- <-] _. cbn. now rewrite append_nil_r.
  - assert (Hloop : forall out dotdot,
      String.length out <> (if rooted then 1 else 0)%nat ->
      existsb (String.eqb "..") (elements (String c s1)) = false ->
      path.clean_loop rooted (String c s1) out dotdot
        = out ++ slashed (List.filter is_real (elements (String c s1)))).
    { intros out dd Hout Hdd. rewrite clean_loop_unfold.
      destruct (Ascii.eqb c slash) eqn:Hc.
      - (* empty element *)
        apply Ascii.eqb_eq in Hc. subst c. rewrite elements_cons_slash in *.
        cbn in Hdd. cbn. now apply IHloop.
      - destruct (elements_nonempty s1) as [e1 [l1 He1]].
        rewrite (elements_cons_other _ _ _ _ Hc He1) in *.
        cbn [existsb List.filter] in *. rewrite is_real_cons.
        apply orb_false_elim in Hdd as [Hfirst Hrest].
        rewrite (first_element_empty _ _ _ He1).
        destruct (Ascii.eqb c dot && String.eqb e1 EmptyString) eqn:Hdot.
        + (* . element *)
          cbn [negb]. apply andb_prop in Hdot as [_ He].
          apply String.eqb_eq in He. subst e1.
          rewrite IHloop; rewrite ?He1; [reflexivity|assumption|].
          cbn [existsb]. now rewrite Hrest.
        + (* a real element: it cannot be .. *)
          cbn [negb].
          assert (Hslash :
            rooted && negb (String.length out =? 1)%nat
            || negb rooted && negb (String.length out =? 0)%nat = true).
          { apply Nat.eqb_neq in Hout. destruct rooted; now rewrite Hout. }
          rewrite Hslash.
          assert (Hcopy : copy_element rooted dd s1 (snoc (snoc out slash) c)
                  = out ++ slashed (String c e1 :: List.filter is_real l1)).
          { rewrite (IHcopy _ dd e1 l1); [| |assumption|assumption].
            - rewrite slashed_cons. rewrite !snoc_append. now rewrite append_cons.
            - rewrite !length_snoc. destruct rooted; lia. }
          destruct s1 as [|c1 s2]; [exact Hcopy|].
          destruct (Ascii.eqb c dot && Ascii.eqb c1 dot && at_end_or_slash s2)
            eqn:Hdd2; [|exact Hcopy].
          exfalso. rewrite (dotdot_ahead _ _ _ _ _ He1 Hdd2) in Hfirst.
          discriminate. }
    split; [exact Hloop|].
    intros o dd e l Ho He Hdd. rewrite copy_element_unfold.
    destruct (Ascii.eqb c slash) eqn:Hc.
    + apply Ascii.eqb_eq in Hc. subst c.
      rewrite elements_cons_slash in He. injection He as <- <-.
      rewrite clean_loop_unfold. change (Ascii.eqb slash slash) with true.
      cbn iota. rewrite IHloop; [reflexivity| |assumption].
      destruct rooted; lia.
    + destruct (elements_nonempty s1) as [e1 [l1 He1]].
      rewrite (elements_cons_other _ _ _ _ Hc He1) in He.
      injection He as <- <-.
      rewrite (IHcopy _ dd e1 l1); [| |assumption|assumption].
      * now rewrite snoc_append.
      * rewrite length_snoc. destruct rooted; lia.
Qed.



Lemma has_dotdot_cons_slash s : has_dotdot (String slash s) = has_dotdot s.
Proof. reflexivity. Qed.

Lemma is_real_nonempty e : is_real e = true -> e <> EmptyString.
Proof. now destruct e. Qed.




(** ** Elements of joined paths *)

Lemma elements_append a b :
  elements (a ++ String slash b) = (elements a ++ elements b)%list.
Proof.
  induction a as [|c a IH]; [reflexivity|].
  rewrite append_cons. cbn [elements]. rewrite IH.
  destruct (Ascii.eqb c slash); [reflexivity|].
  destruct (elements_nonempty a) as [e [l He]]. now rewrite He.
Qed.

Lemma elements_plain n : has_slash n = false -> elements n = [n].
Proof.
  induction n as [|c n IH]; intros Hn; [reflexivity|].
  cbn [has_slash] in Hn. apply orb_false_elim in Hn as [Hc Hn].
  cbn [elements]. now rewrite Hc, IH.
Qed.

Lemma elements_no_slash s : Forall (fun e => has_slash e = false) (elements s).
Proof.
  induction s as [|c s IH]; cbn [elements].
  - now repeat constructor.
  - destruct (Ascii.eqb c slash) eqn:Hc; [now constructor|].
    destruct (elements s) as [|e l]; [repeat constructor; cbn; now rewrite Hc|].
    apply Forall_cons_1 in IH as [He Hl]. constructor; [|assumption].
    cbn [has_slash]. now rewrite Hc, He.
Qed.

Lemma elements_join_slash l :
  l <> [] -> Forall (fun e => has_slash e = false) l ->
  elements (path.join_slash l) = l.
Proof.
  induction l as [|e l IH]; intros Hne Hl; [contradiction|].
  apply Forall_cons_1 in Hl as [He Hl].
  destruct l as [|x l]; [now apply elements_plain|].
  change (path.join_slash (e :: x :: l))
    with (e ++ String slash (path.join_slash (x :: l))).
  rewrite elements_append, (elements_plain _ He), IH; [reflexivity| |assumption].
  discriminate.
Qed.





(** ** The request paths *)

(** Joining onto the base route of a single file: the loop of [Clean]
    runs on the remote path with the base route in the buffer. *)
Lemma Join_secureFileBasePath p :
  path.Join [secureFileBasePath; p]
    = let out := path.clean_loop true p secureFileBasePath 1 in
      if (String.length out =? 0)%nat then "." else out.
Proof. reflexivity. Qed.


Lemma Join_secureFileBasePath_elements p :
  has_dotdot p = false ->
  path.Join [secureFileBasePath; p]
    = secureFileBasePath ++ slashed (real_elements p).
Proof.
  intros Hdd. rewrite Join_secureFileBasePath.
  rewrite (proj1 (clean_loop_spec true p)); [|cbn; lia|assumption].
  cbv zeta. rewrite length_append. reflexivity.
Qed.

(** The listing route joined with no root path is the listing route. *)
Lemma Join_secureFileListBasePath_empty :
  path.Join [secureFileListBasePath; EmptyString] = secureFileListBasePath.
Proof. reflexivity. Qed.


(** ** A plain file name joined onto a directory *)





(** ** Download *)

Section Download.

Variable DoRequest : string -> string -> gmap string string -> result Response.
Variable mime_ParseMediaType : string -> result (string * gmap string string).
Variable os_Create_error : gmap string Stream -> string -> option string.

Local Abbreviation Get := (Get DoRequest mime_ParseMediaType os_Create_error).
Local Abbreviation request p :=
  (CallDoRequest MethodGet (path.Join [secureFileBasePath; p]) ∅).

(** [Get] calls the transport exactly once, whatever happens next. *)
Lemma Get_calls p dir w :
  calls (snd (Get p dir w)) = (calls w ++ [request p])%list.
Proof.
  unfold Get.
  destruct (DoRequest _ _ _) as [resp|e]; [|reflexivity].
  destruct (negb _); [reflexivity|].
  destruct (mime_ParseMediaType _) as [[mt params]|e]; [|reflexivity].
  destruct (params !! "filename") as [N|]; [|reflexivity].
  unfold os_Create. cbn.
  destruct (os_Create_error _ _); reflexivity.
Qed.

(** The status is looked at first: any status but 200 ends [Get] with
    the world as the call left it. *)
Lemma Get_on_other_status p dir w resp :
  DoRequest MethodGet (path.Join [secureFileBasePath; p]) ∅ = Ok resp ->
  StatusCode resp <> StatusOK ->
  Get p dir w
    = (Some (unexpected_status_error p (StatusCode resp)),
       record_call (request p) w).
Proof.
  intros Hresp Hcode. unfold Get.
  now rewrite Hresp, (status_is_not _ _ Hcode).
Qed.

(** C5. When the transport answers [Get] with a status other than 200,
    [Get] returns the error that carries the remote path and the status
    code, and the local files are what they were: no file is created. *)
Theorem Get_unexpected_status p dir w resp :
  DoRequest MethodGet (path.Join [secureFileBasePath; p]) ∅ = Ok resp ->
  StatusCode resp <> StatusOK ->
  Get p dir w
    = (Some (unexpected_status_error p (StatusCode resp)),
       record_call (request p) w)
  /\ files (snd (Get p dir w)) = files w.
Proof.
  intros Hresp Hcode. rewrite (Get_on_other_status p dir w resp Hresp Hcode).
  split; reflexivity.
Qed.

(** C1, as the code has it. When the transport answers [Get] with a
    response whose [Content-Disposition] header does not parse or has no
    [filename] parameter: if the status is 200, [Get] returns one of the
    two malformed-response errors and writes no file (no name is made up);
    if the status is not 200, the status is reported first and [Get]
    returns the unexpected-status error, whatever the header. *)
Theorem Get_missing_filename p dir w resp :
  DoRequest MethodGet (path.Join [secureFileBasePath; p]) ∅ = Ok resp ->
  lacks_filename mime_ParseMediaType resp ->
  (StatusCode resp = StatusOK ->
     (exists e, fst (Get p dir w) = Some e /\ malformed_response_error e)
     /\ files (snd (Get p dir w)) = files w)
  /\ (StatusCode resp <> StatusOK ->
        fst (Get p dir w) = Some (unexpected_status_error p (StatusCode resp))).
Proof.
  intros Hresp Hlacks. unfold lacks_filename in Hlacks. split.
  - intros Hcode. unfold Get.
    rewrite Hresp, (status_is _ _ Hcode).
    destruct (mime_ParseMediaType _) as [[mt params]|cause].
    + rewrite Hlacks. split; [|reflexivity].
      eexists; split; [reflexivity|]. now right.
    + split; [|reflexivity].
      eexists; split; [reflexivity|]. left. now exists cause.
  - intros Hcode.
    now rewrite (Get_on_other_status p dir w resp Hresp Hcode).
Qed.

(** What [Get] does once the response is a 200 whose header names a
    file: it creates the file at the join of the local directory and that
    name, and copies the body into it. *)
Lemma Get_named p dir w resp mt params N :
  DoRequest MethodGet (path.Join [secureFileBasePath; p]) ∅ = Ok resp ->
  StatusCode resp = StatusOK ->
  mime_ParseMediaType (Header_Get (Header resp) "Content-Disposition")
    = Ok (mt, params) ->
  params !! "filename" = Some N ->
  Get p dir w =
    let name := filepath.Join [dir; N] in
    let w1 := record_call (request p) w in
    match os_Create_error (files w) name with
    | Some err => (Some ("error creating localfile " ++ N ++ ": " ++ err), w1)
    | None => (fault (Body resp), write_file name (data (Body resp)) w1)
    end.
Proof.
  intros Hresp Hcode Hparse HN. unfold Get.
  rewrite Hresp, (status_is _ _ Hcode), Hparse, HN.
  unfold os_Create, io_Copy_file. cbn.
  destruct (os_Create_error _ _); [reflexivity|].
  now rewrite write_file_twice.
Qed.


End Download.
(** Appends nested to the right, literal prefixes pushed through. *)
Ltac normalize_append :=
  repeat first
    [ rewrite append_assoc | rewrite append_cons
    | rewrite append_nil_l | rewrite append_nil_r ].

(** ** Upload *)

Section Upload.

Variable DoRequestWithBody :
  string -> string -> gmap string string -> string -> string -> result Response.
Variable randomBoundary : string.

Local Abbreviation getUploadFileBodyWriter :=
  (getUploadFileBodyWriter randomBoundary).
Local Abbreviation Put := (Put DoRequestWithBody randomBoundary).
Local Abbreviation upload p contentType body :=
  (CallDoRequestWithBody MethodPost (path.Join [secureFileBasePath; p]) ∅
     contentType body).

(** A local file that opens and reads to its end becomes the finished
    one-part form, with the content type that names the boundary. *)
Lemma getUploadFileBodyWriter_ok localfile w f :
  files w !! localfile = Some f ->
  fault f = None ->
  getUploadFileBodyWriter localfile w
    = Ok (encode_form randomBoundary
            [mkFormFile "file-content" (filepath.Base localfile) (data f)],
          "multipart/form-data; boundary=" ++ randomBoundary).
Proof.
  intros Hf Hfault.
  unfold getUploadFileBodyWriter, os_Open.
  rewrite Hf. unfold io_Copy_part. cbn. rewrite Hfault. cbn.
  unfold multipart.FormDataContentType, encode_form, multipart.header_line.
  cbn. unfold encode_part, CRLF. cbn.
  do 2 f_equal. now normalize_append.
Qed.

(** A local file that cannot be opened, or whose read ends in an error,
    gives no body. *)
Lemma getUploadFileBodyWriter_open_fails localfile w :
  files w !! localfile = None ->
  getUploadFileBodyWriter localfile w
    = Err ("open " ++ localfile ++ ": no such file or directory").
Proof.
  intros Hf. unfold getUploadFileBodyWriter, os_Open.
  now rewrite Hf.
Qed.

Lemma getUploadFileBodyWriter_read_fails localfile w f e :
  files w !! localfile = Some f ->
  fault f = Some e ->
  getUploadFileBodyWriter localfile w = Err e.
Proof.
  intros Hf Hfault.
  unfold getUploadFileBodyWriter, os_Open.
  rewrite Hf. unfold io_Copy_part. cbn. now rewrite Hfault.
Qed.

(** The body exists exactly when the file opens and reads to its end. *)
Lemma getUploadFileBodyWriter_ok_inv localfile w body contentType :
  getUploadFileBodyWriter localfile w = Ok (body, contentType) ->
  exists f, files w !! localfile = Some f /\ fault f = None.
Proof.
  intros H.
  destruct (files w !! localfile) as [f|] eqn:Hf.
  - destruct (fault f) as [e|] eqn:Hfault.
    + now rewrite (getUploadFileBodyWriter_read_fails _ _ _ _ Hf Hfault) in H.
    + now exists f.
  - now rewrite (getUploadFileBodyWriter_open_fails _ _ Hf) in H.
Qed.

(** C2. When the upload body is built and the transport answers [Put]
    with a response, [Put] returns no error exactly when the status is
    204; for every other status, 200 included, it returns the error that
    carries the remote path and the status code. *)
Theorem Put_succeeds_iff_no_content p localfile w body contentType resp :
  getUploadFileBodyWriter localfile w = Ok (body, contentType) ->
  DoRequestWithBody MethodPost (path.Join [secureFileBasePath; p]) ∅
    contentType body = Ok resp ->
  (fst (Put p localfile w) = None <-> StatusCode resp = StatusNoContent)
  /\ (StatusCode resp <> StatusNoContent ->
        fst (Put p localfile w)
          = Some (unexpected_status_error p (StatusCode resp))).
Proof.
  intros Hbody Hresp. unfold Put. rewrite Hbody, Hresp.
  destruct (Z.eq_dec (StatusCode resp) StatusNoContent) as [Heq|Hne].
  - rewrite (status_is _ _ Heq). cbn. split; [tauto|congruence].
  - rewrite (status_is_not _ _ Hne). cbn. split; [|reflexivity].
    split; [discriminate|congruence].
Qed.


(** C6. When the upload body cannot be built (the local file does not
    open, its read fails, or the multipart writer reports an error),
    [Put] returns that error with the local path, and the world is what
    it was: the transport has not been called. *)
Theorem Put_local_failure_sends_nothing p localfile w err :
  getUploadFileBodyWriter localfile w = Err err ->
  Put p localfile w
    = (Some ("error creating upload body for " ++ localfile ++ " file: " ++ err), w)
  /\ calls (snd (Put p localfile w)) = calls w.
Proof.
  intros Hbody. unfold Put. rewrite Hbody. split; reflexivity.
Qed.

End Upload.
(** ** Listing *)

Section Listing.

Variable DoRequest : string -> string -> gmap string string -> result Response.
Variable parseResponse : Stream -> result SecureFilesResponse.

Local Abbreviation List_pathless := (List_pathless DoRequest parseResponse).
Local Abbreviation List := (List DoRequest parseResponse).

(** C8. The [List] without a root path and the [List] with the empty
    root path leave the same world, in which the one new call of the
    transport is a GET of the listing route with no query parameter, and
    return the same response, or both an error. Only the wording of the
    error for an unexpected status differs. *)
Theorem List_pathless_is_List_of_empty_root w :
  snd (List_pathless w) = snd (List EmptyString w)
  /\ calls (snd (List EmptyString w))
     = (calls w ++ [CallDoRequest MethodGet secureFileListBasePath ∅])%list
  /\ value_of (fst (List_pathless w)) = value_of (fst (List EmptyString w)).
Proof.
  unfold List_pathless, List.
  rewrite Join_secureFileListBasePath_empty.
  destruct (DoRequest _ _ _) as [resp|e]; [|repeat split].
  destruct (negb _); [repeat split|].
  destruct (parseResponse _); repeat split.
Qed.

End Listing.

(** ** Request paths of [Get] and [Put] *)

Section Paths.

Variable DoRequest : string -> string -> gmap string string -> result Response.
Variable DoRequestWithBody :
  string -> string -> gmap string string -> string -> string -> result Response.
Variable mime_ParseMediaType : string -> result (string * gmap string string).
Variable os_Create_error : gmap string Stream -> string -> option string.
Variable randomBoundary : string.

Local Abbreviation Get := (Get DoRequest mime_ParseMediaType os_Create_error).
Local Abbreviation Put := (Put DoRequestWithBody randomBoundary).



End Paths.

(** ** Where [Get] writes *)

(** C9. [Get] joins the file name of the header onto the local directory
    as it is: once the response is a 200 whose header names the file [N]
    and the file can be created, the file written is the one at
    [filepath.Join] of the local directory and [N]. For some names the
    server can send, with a slash and a [..] element, that file is not
    below the local directory: against the test server sending
    [../evil.txt], [Get] into [/tmp/testing] succeeds and the one file it
    writes is [/tmp/evil.txt]. *)
Theorem Get_joins_server_name_unsanitized :
  (forall DoRequest mime_ParseMediaType os_Create_error
          p dir w resp mt params N,
     DoRequest MethodGet (path.Join [secureFileBasePath; p]) ∅ = Ok resp ->
     StatusCode resp = StatusOK ->
     mime_ParseMediaType (Header_Get (Header resp) "Content-Disposition")
       = Ok (mt, params) ->
     params !! "filename" = Some N ->
     os_Create_error (files w) (filepath.Join [dir; N]) = None ->
     files (snd (Get DoRequest mime_ParseMediaType os_Create_error p dir w))
       = <[filepath.Join [dir; N] := mkStream (data (Body resp)) None]> (files w))
  /\ (exists N,
        has_slash N = true /\ has_dotdot N = true
        /\ below_directory Fixture.tempdir (filepath.Join [Fixture.tempdir; N])
           = false
        /\ Get (Fixture.binaryTestServer 200 N "hello world")
             Fixture.ParseMediaType Fixture.permissive
             "/test/file/hello.txt" Fixture.tempdir Fixture.empty_world
           = (None,
              mkWorld {[ "/tmp/evil.txt" := mkStream "hello world" None ]}
                [CallDoRequest MethodGet
                   "/v1/secure-file/test/file/hello.txt" ∅])).
Proof.
  split.
  - intros DoRequest parse create p dir w resp mt params N
      Hresp Hcode Hparse HN Hcreate.
    rewrite (Get_named _ _ _ p dir w resp mt params N Hresp Hcode Hparse HN).
    cbv zeta. now rewrite Hcreate.
  - exists "../evil.txt". repeat split; vm_compute; reflexivity.
Qed.

(** ** Decoding a list response *)





(** The decoding of the reply of the tests is the response they expect. *)
Example decode_secureFileListReply :
  decodeListReply WireFixture.secureFileListReply = WireFixture.expectedResponse.
Proof. reflexivity. Qed.


(** * The tests of the repository, and other runs *)

(** [TestSecureFileGet], an invalid call to download: the server answers
    500, [Get] reports the status with the remote path and no file
    appears. *)
Lemma Get_unexpected_status_witness :
  Get (Fixture.binaryTestServer 500 "hello.txt" "hello world")
      Fixture.ParseMediaType Fixture.permissive
      "/test/file/hello.txt" Fixture.tempdir Fixture.empty_world
    = (Some "error while trying to download secure file /test/file/hello.txt. Got HTTP status code 500",
       mkWorld ∅ [CallDoRequest MethodGet "/v1/secure-file/test/file/hello.txt" ∅])
  /\ files (snd (Get (Fixture.binaryTestServer 500 "hello.txt" "hello world")
                   Fixture.ParseMediaType Fixture.permissive
                   "/test/file/hello.txt" Fixture.tempdir Fixture.empty_world))
     = ∅.
Proof.
  apply (Get_unexpected_status
           (Fixture.binaryTestServer 500 "hello.txt" "hello world")
           Fixture.ParseMediaType Fixture.permissive
           "/test/file/hello.txt" Fixture.tempdir Fixture.empty_world
           (mkResponse 500
              {[ "Content-Type" := ["application/octet-stream"];
                 "Content-Disposition" := [Fixture.attachment "hello.txt"] ]}
              (mkStream "hello world" None))).
  - reflexivity.
  - vm_compute. discriminate.
Defined.

(** A 200 answer without any header: [Get] reports the missing media
    type and writes nothing. *)
Lemma Get_missing_filename_witness :
  (exists e,
     fst (Get (Fixture.plainServer 200) Fixture.ParseMediaType
            Fixture.permissive "/test/file/hello.txt" Fixture.tempdir
            Fixture.empty_world) = Some e
     /\ malformed_response_error e)
  /\ files (snd (Get (Fixture.plainServer 200) Fixture.ParseMediaType
                   Fixture.permissive "/test/file/hello.txt" Fixture.tempdir
                   Fixture.empty_world))
     = files Fixture.empty_world.
Proof.
  apply (Get_missing_filename (Fixture.plainServer 200)
           Fixture.ParseMediaType Fixture.permissive
           "/test/file/hello.txt" Fixture.tempdir Fixture.empty_world
           (mkResponse 200 ∅ (mkStream EmptyString None))).
  - reflexivity.
  - vm_compute. exact I.
  - reflexivity.
Defined.

(** The status is looked at before the header: a 500 answer without any
    header is reported as an unexpected status, not as a malformed
    response. *)
Lemma Get_reports_status_before_header :
  lacks_filename Fixture.ParseMediaType
    (mkResponse 500 ∅ (mkStream EmptyString None))
  /\ fst (Get (Fixture.plainServer 500) Fixture.ParseMediaType
            Fixture.permissive "/test/file/hello.txt" Fixture.tempdir
            Fixture.empty_world)
     = Some "error while trying to download secure file /test/file/hello.txt. Got HTTP status code 500"
  /\ ~ malformed_response_error
         "error while trying to download secure file /test/file/hello.txt. Got HTTP status code 500".
Proof.
  split; [vm_compute; exact I|]. split; [vm_compute; reflexivity|].
  intros [[cause H]|H]; [|discriminate H].
  rewrite !append_cons in H. discriminate H.
Qed.


Example Get_test_file_path :
  filepath.Join [Fixture.tempdir; "hello.txt"] = "/tmp/testing/hello.txt".
Proof. reflexivity. Qed.

(** An upload answered by 200: the body was built, the transport
    answered, and [Put] reports the status. *)
Lemma Put_succeeds_iff_no_content_witness :
  (fst (Put (Fixture.uploadServer 200) Fixture.boundary
          "/app/sdb/secret.txt" "/home/me/secret.txt" Fixture.secret_world)
     = None <-> 200 = StatusNoContent)
  /\ (200 <> StatusNoContent ->
      fst (Put (Fixture.uploadServer 200) Fixture.boundary
             "/app/sdb/secret.txt" "/home/me/secret.txt" Fixture.secret_world)
        = Some (unexpected_status_error "/app/sdb/secret.txt" 200)).
Proof.
  eapply (Put_succeeds_iff_no_content (Fixture.uploadServer 200)
            Fixture.boundary "/app/sdb/secret.txt" "/home/me/secret.txt"
            Fixture.secret_world _ _
            (mkResponse 200 ∅ (mkStream EmptyString None))).
  - apply (getUploadFileBodyWriter_ok Fixture.boundary "/home/me/secret.txt"
             Fixture.secret_world (mkStream "s3cr3t" None));
      vm_compute; reflexivity.
  - reflexivity.
Defined.


Example Put_test_file_name : filepath.Base "/home/me/secret.txt" = "secret.txt".
Proof. reflexivity. Qed.

(** The upload of a file that does not exist: nothing is sent. *)
Lemma Put_local_failure_sends_nothing_witness :
  Put (Fixture.uploadServer 204) Fixture.boundary
      "/app/sdb/secret.txt" "/home/me/secret.txt" Fixture.empty_world
    = (Some ("error creating upload body for " ++ "/home/me/secret.txt"
               ++ " file: "
               ++ "open /home/me/secret.txt: no such file or directory"),
       Fixture.empty_world)
  /\ calls (snd (Put (Fixture.uploadServer 204) Fixture.boundary
                   "/app/sdb/secret.txt" "/home/me/secret.txt"
                   Fixture.empty_world))
     = calls Fixture.empty_world.
Proof.
  apply (Put_local_failure_sends_nothing (Fixture.uploadServer 204)
           Fixture.boundary "/app/sdb/secret.txt" "/home/me/secret.txt"
           Fixture.empty_world
           "open /home/me/secret.txt: no such file or directory").
  reflexivity.
Defined.


Example request_path_of_the_tests :
  path.Join [secureFileBasePath; "/test/file/hello.txt"]
    = "/v1/secure-file/test/file/hello.txt".
Proof. reflexivity. Qed.


(** * Further properties of the operations *)

(** ** Outcomes of [List] *)

Section ListOutcomes.

Variable DoRequest : string -> string -> gmap string string -> result Response.
Variable parseResponse : Stream -> result SecureFilesResponse.

Local Abbreviation List := (List DoRequest parseResponse).
Local Abbreviation listing rootpath :=
  (path.Join [secureFileListBasePath; rootpath]).

(** X1. [List] returns a response exactly when the transport answers
    the GET of the joined listing path with status 200 and the body
    decodes; the response returned is the decoded one. *)
Theorem List_returns_decoded_iff rootpath w sfr :
  fst (List rootpath w) = Ok sfr <->
  exists resp,
    DoRequest MethodGet (listing rootpath) ∅ = Ok resp
    /\ StatusCode resp = StatusOK
    /\ parseResponse (Body resp) = Ok sfr.
Proof.
  unfold List. split.
  - destruct (DoRequest _ _ _) as [resp|err]; [|discriminate].
    destruct (Z.eq_dec (StatusCode resp) StatusOK) as [Hcode|Hcode].
    + rewrite (status_is _ _ Hcode).
      destruct (parseResponse _) as [r|err] eqn:Hparse; [|discriminate].
      intros [= <-]. now exists resp.
    + now rewrite (status_is_not _ _ Hcode).
  - intros [resp [-> [Hcode Hparse]]].
    now rewrite (status_is _ _ Hcode), Hparse.
Qed.

(** X2. The errors of [List], each with its cause: a transport error is
    wrapped in the text about getting the secure files; an answer with
    another status than 200 gives the text with the status code, and its
    body is not decoded; the error of decoding a 200 answer is returned as
    it is, not wrapped. *)
Theorem List_error_cases rootpath w e :
  fst (List rootpath w) = Err e <->
  (exists err,
     DoRequest MethodGet (listing rootpath) ∅ = Err err
     /\ e = "error while trying to get secure files: " ++ err)
  \/ (exists resp,
        DoRequest MethodGet (listing rootpath) ∅ = Ok resp
        /\ ((StatusCode resp <> StatusOK
             /\ e = "error while trying to list secure files. Got HTTP status code "
                    ++ itoa (StatusCode resp))
            \/ (StatusCode resp = StatusOK
                /\ parseResponse (Body resp) = Err e))).
Proof.
  unfold List.
  destruct (DoRequest _ _ _) as [resp|err].
  - destruct (Z.eq_dec (StatusCode resp) StatusOK) as [Hcode|Hcode].
    + rewrite (status_is _ _ Hcode).
      destruct (parseResponse _) as [r|err] eqn:Hparse; cbn [fst]; split.
      * discriminate.
      * intros [[err [H _]]|[resp' [[= <-] [[H _]|[_ H]]]]];
          [discriminate|contradiction|congruence].
      * intros [= <-]. right. exists resp. split; [reflexivity|]. right. tauto.
      * intros [[err' [H _]]|[resp' [[= <-] [[H _]|[_ H]]]]];
          [discriminate|contradiction|congruence].
    + rewrite (status_is_not _ _ Hcode). cbn [fst]. split.
      * intros [= <-]. right. exists resp. split; [reflexivity|]. left. tauto.
      * intros [[err' [H _]]|[resp' [[= <-] [[_ H]|[H _]]]]];
          [discriminate|congruence|contradiction].
  - cbn [fst]. split.
    + intros [= <-]. left. now exists err.
    + intros [[err' [[= <-] ->]]|[resp [H _]]]; [reflexivity|discriminate].
Qed.

End ListOutcomes.

(** ** Outcomes of [Get] *)

Section GetOutcomes.

Variable DoRequest : string -> string -> gmap string string -> result Response.
Variable mime_ParseMediaType : string -> result (string * gmap string string).
Variable os_Create_error : gmap string Stream -> string -> option string.

Local Abbreviation Get := (Get DoRequest mime_ParseMediaType os_Create_error).
Local Abbreviation remote p := (path.Join [secureFileBasePath; p]).
Local Abbreviation disposition resp :=
  (mime_ParseMediaType (Header_Get (Header resp) "Content-Disposition")).

(** [Get], stage by stage. *)
Lemma Get_stages p dir w :
  Get p dir w =
    let w1 := record_call (CallDoRequest MethodGet (remote p) ∅) w in
    match DoRequest MethodGet (remote p) ∅ with
    | Err err => (Some ("error while downloading secure file: " ++ err), w1)
    | Ok resp =>
        if negb (StatusCode resp =? StatusOK)
        then (Some (unexpected_status_error p (StatusCode resp)), w1)
        else
          match disposition resp with
          | Err err => (Some ("error parsing secure file header: " ++ err), w1)
          | Ok (_, params) =>
              match params !! "filename" with
              | None => (Some "no filename present in securefile header", w1)
              | Some N =>
                  match os_Create_error (files w) (filepath.Join [dir; N]) with
                  | Some err =>
                      (Some ("error creating localfile " ++ N ++ ": " ++ err), w1)
                  | None =>
                      (fault (Body resp),
                       write_file (filepath.Join [dir; N]) (data (Body resp)) w1)
                  end
              end
          end
    end.
Proof.
  unfold Get. cbv zeta.
  destruct (DoRequest _ _ _) as [resp|err]; [|reflexivity].
  destruct (negb _); [reflexivity|].
  destruct (disposition resp) as [[mt params]|err]; [|reflexivity].
  destruct (params !! "filename") as [N|]; [|reflexivity].
  unfold os_Create, io_Copy_file. cbn [files record_call].
  destruct (os_Create_error _ _); [reflexivity|].
  now rewrite write_file_twice.
Qed.



(** X5. Whatever the outcome, [Get] changes no local file but the one at
    the join of the local directory and the file name of the header. *)
Theorem Get_changes_only_the_named_file p dir w q :
  files (snd (Get p dir w)) !! q = files w !! q
  \/ exists resp mt params N,
       DoRequest MethodGet (remote p) ∅ = Ok resp
       /\ disposition resp = Ok (mt, params)
       /\ params !! "filename" = Some N
       /\ q = filepath.Join [dir; N].
Proof.
  rewrite Get_stages. cbv zeta.
  destruct (DoRequest _ _ _) as [resp|err]; [|now left].
  destruct (negb _); [now left|].
  destruct (disposition resp) as [[mt params]|err] eqn:Hparse; [|now left].
  destruct (params !! "filename") as [N|] eqn:HN; [|now left].
  destruct (os_Create_error _ _); [now left|].
  cbn [snd files write_file record_call].
  destruct (decide (filepath.Join [dir; N] = q)) as [<-|Hq].
  - right. now exists resp, mt, params, N.
  - left. now apply lookup_insert_ne.
Qed.


End GetOutcomes.


Example Get_partial_file :
  Get (Faults.brokenBodyServer "hello.txt" "hello" "unexpected EOF")
    Fixture.ParseMediaType Fixture.permissive
    "/test/file/hello.txt" Fixture.tempdir Fixture.empty_world
  = (Some "unexpected EOF",
     mkWorld {[ "/tmp/testing/hello.txt" := mkStream "hello" None ]}
       [CallDoRequest MethodGet "/v1/secure-file/test/file/hello.txt" ∅]).
Proof. vm_compute. reflexivity. Qed.


(** ** Outcomes of [Put] and of the upload body *)

Section PutOutcomes.

Variable DoRequestWithBody :
  string -> string -> gmap string string -> string -> string -> result Response.
Variable randomBoundary : string.

Local Abbreviation getUploadFileBodyWriter :=
  (getUploadFileBodyWriter randomBoundary).
Local Abbreviation Put := (Put DoRequestWithBody randomBoundary).
Local Abbreviation remote p := (path.Join [secureFileBasePath; p]).
Local Abbreviation form localfile f :=
  (encode_form randomBoundary
     [mkFormFile "file-content" (filepath.Base localfile) (data f)]).
Local Abbreviation formType :=
  ("multipart/form-data; boundary=" ++ randomBoundary).


(** X8. [Put] returns no error exactly when the local file opens and
    reads to its end, the transport answers the POST of the one-part
    form of that file, and the status of the answer is 204. *)
Theorem Put_succeeds_iff p localfile w :
  fst (Put p localfile w) = None <->
  exists f resp,
    files w !! localfile = Some f
    /\ fault f = None
    /\ DoRequestWithBody MethodPost (remote p) ∅ formType (form localfile f)
       = Ok resp
    /\ StatusCode resp = StatusNoContent.
Proof.
  unfold Put.
  destruct (files w !! localfile) as [f|] eqn:Hf.
  - destruct (fault f) as [e'|] eqn:Hfault.
    + rewrite (getUploadFileBodyWriter_read_fails _ _ _ _ _ Hf Hfault). split.
      * discriminate.
      * intros [f' [resp [[= <-] [H _]]]]. congruence.
    + rewrite (getUploadFileBodyWriter_ok _ _ _ _ Hf Hfault). split.
      * destruct (DoRequestWithBody _ _ _ _ _) as [resp|err] eqn:Hresp;
          [|discriminate].
        destruct (Z.eq_dec (StatusCode resp) StatusNoContent) as [Hcode|Hcode];
          [|now rewrite (status_is_not _ _ Hcode)].
        intros _. now exists f, resp.
      * intros [f' [resp [[= <-] [_ [-> Hcode]]]]].
        now rewrite (status_is _ _ Hcode).
  - rewrite (getUploadFileBodyWriter_open_fails _ _ _ Hf). split.
    + discriminate.
    + intros [f [resp [H _]]]. discriminate.
Qed.

(** X9. Whatever the outcome, [Put] changes no local file, and it calls
    the transport at most once: its calls are those of before, alone or
    followed by one POST to the joined remote path. *)
Theorem Put_keeps_files_and_calls_at_most_once p localfile w :
  files (snd (Put p localfile w)) = files w
  /\ (calls (snd (Put p localfile w)) = calls w
      \/ exists contentType body,
           calls (snd (Put p localfile w))
           = (calls w
              ++ [CallDoRequestWithBody MethodPost (remote p) ∅
                    contentType body])%list).
Proof.
  unfold Put.
  destruct (getUploadFileBodyWriter _ _) as [[body contentType]|err];
    [|split; [reflexivity|now left]].
  destruct (DoRequestWithBody _ _ _ _ _) as [resp|err];
    [destruct (negb _)|]; (split; [reflexivity|right; now eexists; eexists]).
Qed.

End PutOutcomes.

(** * [path.Clean] on rooted paths, parent elements included *)

Lemma length_String c (s : string) : String.length (String c s) = S (String.length s).
Proof. reflexivity. Qed.

Lemma byte_at_append_r (a b : string) j :
  byte_at (a ++ b) (String.length a + j) = byte_at b j.
Proof.
  unfold byte_at. induction a as [|c a IH]; [reflexivity|].
  rewrite append_cons. cbn [String.length Nat.add String.get]. exact IH.
Qed.

Lemma byte_at_zero c (s : string) : byte_at (String c s) 0 = c.
Proof. reflexivity. Qed.

Lemma byte_at_succ c (s : string) j : byte_at (String c s) (S j) = byte_at s j.
Proof. reflexivity. Qed.

Lemma byte_at_no_slash x j :
  has_slash x = false -> (j < String.length x)%nat ->
  Ascii.eqb (byte_at x j) slash = false.
Proof.
  revert j. induction x as [|c x IH]; intros j Hx Hj; [cbn in Hj; lia|].
  cbn [has_slash] in Hx. apply orb_false_elim in Hx as [Hc Hx].
  destruct j as [|j]; [now rewrite byte_at_zero|].
  rewrite byte_at_succ. apply IH; [assumption|]. cbn in Hj. lia.
Qed.

Lemma take_append (a b : string) : take (String.length a) (a ++ b) = a.
Proof.
  unfold take. induction a as [|c a IH]; [now destruct b|].
  rewrite append_cons. cbn [String.length String.substring]. now rewrite IH.
Qed.

Lemma take_one c (s : string) : take 1 (String c s) = String c EmptyString.
Proof. unfold take. cbn. now destruct s. Qed.

(** The way back over the last element of the buffer: down to the slash
    before it, or to the root. *)
Lemma backtrack_element (a x : string) k :
  has_slash x = false ->
  (k <= String.length x)%nat ->
  (1 <= String.length a + k)%nat ->
  path.backtrack (a ++ String slash x) 1 (String.length a + k)
    = Nat.max (String.length a) 1.
Proof.
  intros Hx. induction k as [|k IH]; intros Hk Hpos.
  - rewrite Nat.add_0_r in *.
    destruct (String.length a) as [|n] eqn:Hlen; [lia|].
    cbn [path.backtrack]. rewrite <- Hlen.
    replace (String.length a) with (String.length a + 0)%nat at 2 by lia.
    rewrite byte_at_append_r, byte_at_zero, Ascii.eqb_refl, andb_false_r.
    rewrite Hlen. lia.
  - replace (String.length a + S k)%nat with (S (String.length a + k)) by lia.
    cbn [path.backtrack].
    replace (S (String.length a + k)) with (String.length a + S k)%nat by lia.
    rewrite byte_at_append_r, byte_at_succ.
    rewrite (byte_at_no_slash x k Hx) by lia. cbn [negb]. rewrite andb_true_r.
    destruct (1 <? String.length a + S k)%nat eqn:Hlt.
    + apply Nat.ltb_lt in Hlt. apply IH; lia.
    + apply Nat.ltb_ge in Hlt. lia.
Qed.

Lemma slashed_app l1 l2 : slashed (l1 ++ l2) = slashed l1 ++ slashed l2.
Proof.
  induction l1 as [|e l1 IH]; [reflexivity|].
  cbn [app slashed]. now rewrite IH, !append_cons, append_assoc.
Qed.

Lemma slashed_last l x : slashed (l ++ [x]) = slashed l ++ String slash x.
Proof. rewrite slashed_app. cbn [slashed]. now rewrite append_nil_r. Qed.

Lemma rooted_form_last l x : rooted_form (l ++ [x]) = slashed (l ++ [x]).
Proof. now destruct l. Qed.

Lemma length_slashed_nonempty e l :
  e <> EmptyString -> (1 < String.length (slashed (e :: l)))%nat.
Proof.
  intros He. cbn [slashed]. rewrite append_cons, length_String, length_append.
  destruct e; [contradiction|]. cbn. lia.
Qed.

(** Dropping the last element of the buffer. *)
Lemma backtrack_pop l x :
  has_slash x = false -> x <> EmptyString ->
  let out := slashed (l ++ [x]) in
  take (path.backtrack out 1 (String.length out - 1)) out = rooted_form l.
Proof.
  intros Hx Hne. cbv zeta. rewrite slashed_last.
  assert (Hlen : (String.length (slashed l ++ String slash x) - 1
                  = String.length (slashed l) + String.length x)%nat).
  { rewrite length_append, length_String. lia. }
  rewrite Hlen, (backtrack_element _ _ _ Hx); [|lia|].
  - destruct l as [|e l].
    + cbn [slashed String.length Nat.max]. rewrite append_nil_l. apply take_one.
    + assert (1 <= String.length (slashed (e :: l)))%nat
        by (cbn [slashed]; rewrite append_cons, length_String; lia).
      rewrite Nat.max_l by assumption. apply take_append.
  - destruct x; [contradiction|]. cbn. lia.
Qed.

(** What tells [..] apart at the start of an element. *)
Lemma dotdot_lookahead c s1 e1 l1 :
  elements s1 = e1 :: l1 ->
  match s1 with
  | String c1 s2 => Ascii.eqb c dot && Ascii.eqb c1 dot && at_end_or_slash s2
  | EmptyString => false
  end = String.eqb ".." (String c e1).
Proof.
  intros He1. rewrite eqb_dotdot_cons.
  destruct s1 as [|c1 s2].
  - cbn in He1. injection He1 as <- <-. now rewrite andb_false_r.
  - destruct (elements_nonempty s2) as [e2 [l2 He2]].
    cbn [elements] in He1. rewrite He2 in He1.
    destruct (Ascii.eqb c1 slash) eqn:Hc1.
    + injection He1 as <- <-. apply Ascii.eqb_eq in Hc1. subst c1.
      change (Ascii.eqb slash dot) with false.
      now rewrite andb_false_r.
    + injection He1 as <- <-.
      rewrite (first_element_empty _ _ _ He2). now rewrite andb_assoc.
Qed.

Lemma stack_ok_last l x :
  stack_ok l -> has_slash x = false -> x <> EmptyString -> stack_ok (l ++ [x]).
Proof.
  intros Hl Hx Hne. apply Forall_app. split; [assumption|]. now repeat constructor.
Qed.

Lemma has_slash_append a b : has_slash (a ++ b) = has_slash a || has_slash b.
Proof.
  induction a as [|c a IH]; [reflexivity|].
  rewrite append_cons. cbn [has_slash]. now rewrite IH, orb_assoc.
Qed.

Lemma first_element_no_slash s e l : elements s = e :: l -> has_slash e = false.
Proof.
  intros He. pose proof (elements_no_slash s) as H. rewrite He in H.
  now apply Forall_cons_1 in H as [H _].
Qed.

Lemma list_last_case {A} (l : list A) : l = [] \/ exists l' x, l = (l' ++ [x])%list.
Proof.
  induction l as [|x l _] using rev_ind; [now left|]. right. now exists l, x.
Qed.

(** The loop of [Clean] on a rooted path, the buffer holding the rooted
    form of the elements kept so far: it ends with the rooted form of the
    elements the rest resolves to. The second part is the same for the
    copy loop, in the middle of the element that starts with [pre]. *)
Lemma clean_loop_resolve n :
  forall s, (String.length s <= n)%nat ->
  (forall l,
     stack_ok l ->
     path.clean_loop true s (rooted_form l) 1
       = rooted_form (resolve l (elements s)))
  /\ (forall l pre e rest,
        stack_ok l ->
        pre <> EmptyString -> has_slash pre = false ->
        elements s = e :: rest ->
        copy_element true 1 s (slashed (l ++ [pre]))
          = rooted_form (resolve (l ++ [pre ++ e]) rest)).
Proof.
  induction n as [|n IH]; intros s Hlen.
  { destruct s; [|cbn in Hlen; lia]. split.
    - intros l _. reflexivity.
    - intros l pre e rest _ _ _ [= <- <-]. cbn [copy_element resolve].
      now rewrite append_nil_r, rooted_form_last. }
  destruct s as [|c s1].
  { split.
    - intros l _. reflexivity.
    - intros l pre e rest _ _ _ [= <- <-]. cbn [copy_element resolve].
      now rewrite append_nil_r, rooted_form_last. }
  rewrite length_String in Hlen.
  assert (Hs1 : (String.length s1 <= n)%nat) by lia.
  destruct (IH s1 Hs1) as [IHloop IHcopy].
  destruct (elements_nonempty s1) as [e1 [l1 He1]].
  assert (Hloop : forall l,
    stack_ok l ->
    path.clean_loop true (String c s1) (rooted_form l) 1
      = rooted_form (resolve l (elements (String c s1)))).
  { intros l Hl. rewrite clean_loop_unfold.
    destruct (Ascii.eqb c slash) eqn:Hc.
    { (* empty element *)
      apply Ascii.eqb_eq in Hc. subst c. rewrite elements_cons_slash.
      cbn [resolve]. change (is_real EmptyString) with false. cbn [negb].
      now apply IHloop. }
    rewrite (elements_cons_other _ _ _ _ Hc He1). cbn [resolve].
    rewrite is_real_cons, negb_involutive.
    rewrite (first_element_empty _ _ _ He1).
    destruct (Ascii.eqb c dot && String.eqb e1 EmptyString) eqn:Hdot.
    { (* . element *)
      apply andb_prop in Hdot as [_ He]. apply String.eqb_eq in He. subst e1.
      rewrite (IHloop l Hl), He1. cbn [resolve].
      now change (is_real EmptyString) with false. }
    pose proof (dotdot_lookahead c s1 e1 l1 He1) as Hahead.
    destruct (String.eqb ".." (String c e1)) eqn:Hdd.
    - (* .. element *)
      destruct s1 as [|c1 s2]; [discriminate Hahead|].
      rewrite Hahead.
      assert (Hs2 : (String.length s2 <= n)%nat)
        by (rewrite length_String in Hs1; lia).
      destruct (IH s2 Hs2) as [IHloop2 _].
      assert (Hrest : forall st, resolve st (elements s2) = resolve st l1).
      { intros st. rewrite eqb_dotdot_cons in Hdd.
        apply andb_prop in Hdd as [_ Hdd].
        destruct e1 as [|c' e1']; [discriminate|].
        apply andb_prop in Hdd as [Hc' He1']. apply String.eqb_eq in He1'.
        subst e1'. destruct (elements_nonempty s2) as [e2 [l2 He2]].
        cbn [elements] in He1. rewrite He2 in He1.
        destruct (Ascii.eqb c1 slash); [discriminate He1|].
        injection He1 as _ He2' <-. subst e2. rewrite He2. cbn [resolve].
        now change (is_real EmptyString) with false. }
      destruct (list_last_case l) as [->|[l' [x ->]]].
      + cbn [rooted_form String.length removelast]. cbn [Nat.ltb Nat.leb negb].
        change (1 <? 1)%nat with false. cbn iota.
        rewrite <- Hrest. now apply (IHloop2 []).
      + apply Forall_app in Hl as [Hl' Hx].
        apply Forall_cons_1 in Hx as [[Hx Hne] _].
        rewrite rooted_form_last.
        assert (Hlong : (1 <? String.length (slashed (l' ++ [x])))%nat = true).
        { apply Nat.ltb_lt. rewrite slashed_last, length_append, length_String.
          destruct x; [contradiction|]. cbn. lia. }
        rewrite Hlong, (backtrack_pop l' x Hx Hne), removelast_last.
        rewrite <- Hrest. now apply IHloop2.
    - (* a real element *)
      assert (Ho : snoc (if true && negb (String.length (rooted_form l) =? 1)%nat
                            || negb true
                               && negb (String.length (rooted_form l) =? 0)%nat
                         then snoc (rooted_form l) slash
                         else rooted_form l) c
                   = slashed (l ++ [String c EmptyString])).
      { destruct l as [|x l].
        - reflexivity.
        - apply Forall_cons_1 in Hl as [[_ Hne] _].
          pose proof (length_slashed_nonempty x l Hne) as Hlong.
          cbn [rooted_form andb negb orb].
          assert ((String.length (slashed (x :: l)) =? 1)%nat = false) as ->
            by (apply Nat.eqb_neq; lia).
          cbn [negb orb]. rewrite slashed_last. unfold snoc.
          now rewrite append_assoc. }
      assert (Hcopy : copy_element true 1 s1 (slashed (l ++ [String c EmptyString]))
                      = rooted_form (resolve (l ++ [String c e1]) l1)).
      { apply (IHcopy l (String c EmptyString) e1 l1); try assumption.
        - discriminate.
        - cbn [has_slash]. now rewrite Hc. }
      cbv zeta. rewrite Ho.
      destruct s1 as [|c1 s2]; [exact Hcopy|]. rewrite Hahead. exact Hcopy. }
  split; [exact Hloop|].
  intros l pre e rest Hl Hpre Hslash He.
  rewrite copy_element_unfold.
  destruct (Ascii.eqb c slash) eqn:Hc.
  - apply Ascii.eqb_eq in Hc. subst c.
    rewrite elements_cons_slash in He. injection He as <- <-.
    rewrite append_nil_r.
    rewrite <- rooted_form_last, Hloop by now apply stack_ok_last.
    rewrite elements_cons_slash. cbn [resolve].
    now change (is_real EmptyString) with false.
  - rewrite (elements_cons_other _ _ _ _ Hc He1) in He. injection He as <- <-.
    assert (Hsnoc : snoc (slashed (l ++ [pre])) c = slashed (l ++ [snoc pre c])).
    { rewrite !slashed_last. unfold snoc. now rewrite append_assoc, append_cons. }
    rewrite Hsnoc.
    replace (pre ++ String c e1) with (snoc pre c ++ e1)
      by apply snoc_append.
    apply (IHcopy l (snoc pre c) e1 l1); try assumption.
    + unfold snoc. destruct pre; discriminate.
    + now rewrite has_slash_snoc, Hslash, Hc.
Qed.

Lemma rooted_form_nonempty l : (String.length (rooted_form l) =? 0)%nat = false.
Proof. destruct l; reflexivity. Qed.

Lemma stack_ok_nil : stack_ok [].
Proof. constructor. Qed.

(** [path.Clean] on every rooted path. *)
Lemma Clean_rooted_resolve s :
  path.Clean (String slash s) = rooted_form (resolve [] (elements s)).
Proof.
  unfold path.Clean. change (Ascii.eqb slash slash) with true. cbn iota.
  change "/" with (rooted_form []).
  rewrite (proj1 (clean_loop_resolve _ s (Nat.le_refl _)) [] stack_ok_nil).
  now rewrite rooted_form_nonempty.
Qed.

Lemma resolve_app st a b : resolve st (a ++ b) = resolve (resolve st a) b.
Proof.
  revert st. induction a as [|e a IH]; intros st; [reflexivity|].
  cbn [app resolve]. destruct (negb (is_real e)); [apply IH|].
  destruct (String.eqb ".." e); apply IH.
Qed.

Lemma resolve_without_dotdot st els :
  existsb (String.eqb "..") els = false ->
  resolve st els = (st ++ List.filter is_real els)%list.
Proof.
  revert st. induction els as [|e els IH]; intros st Hdd.
  - cbn. now rewrite app_nil_r.
  - cbn [existsb] in Hdd. apply orb_false_elim in Hdd as [He Hdd].
    cbn [resolve List.filter]. destruct (is_real e); cbn [negb].
    + rewrite He, IH by assumption. now rewrite <- app_assoc.
    + now apply IH.
Qed.

Lemma is_kept_stack_ok l :
  Forall (fun e => is_kept e = true) l -> stack_ok l.
Proof.
  intros Hall. eapply Forall_impl; [exact Hall|]. cbv beta.
  intros e He. unfold is_kept in He.
  apply andb_prop in He as [He Hslash]. apply andb_prop in He as [Hreal _].
  split; [now apply negb_true_iff|now apply is_real_nonempty].
Qed.

Lemma Forall_removelast {A} (P : A -> Prop) l :
  Forall P l -> Forall P (removelast l).
Proof.
  induction l as [|x l IH]; intros Hl; [constructor|].
  apply Forall_cons_1 in Hl as [Hx Hl]. cbn [removelast].
  destruct l; [constructor|]. constructor; [assumption|now apply IH].
Qed.

(** Resolving keeps only real elements other than [..]. *)
Lemma resolve_kept st els :
  Forall (fun e => is_kept e = true) st ->
  Forall (fun e => has_slash e = false) els ->
  Forall (fun e => is_kept e = true) (resolve st els).
Proof.
  revert st. induction els as [|e els IH]; intros st Hst Hels; [assumption|].
  apply Forall_cons_1 in Hels as [He Hels]. cbn [resolve].
  destruct (is_real e) eqn:Hreal; cbn [negb]; [|now apply IH].
  destruct (String.eqb ".." e) eqn:Hdd.
  - apply IH; [now apply Forall_removelast|assumption].
  - apply IH; [|assumption]. apply Forall_app. split; [assumption|].
    repeat constructor. unfold is_kept. now rewrite Hreal, Hdd, He.
Qed.

Lemma resolve_kept_elements st l :
  Forall (fun e => is_kept e = true) l -> resolve st l = (st ++ l)%list.
Proof.
  revert st. induction l as [|e l IH]; intros st Hl.
  - cbn. now rewrite app_nil_r.
  - apply Forall_cons_1 in Hl as [He Hl]. unfold is_kept in He.
    apply andb_prop in He as [He _]. apply andb_prop in He as [Hreal Hdd].
    apply negb_true_iff in Hdd.
    cbn [resolve]. rewrite Hreal, Hdd. cbn [negb].
    rewrite IH by assumption. now rewrite <- app_assoc.
Qed.

Lemma elements_slashed e l :
  Forall (fun x => has_slash x = false) (e :: l) ->
  elements (slashed (e :: l)) = EmptyString :: e :: l.
Proof.
  intros Hl. cbn [slashed]. rewrite append_cons, <- join_slash_cons.
  rewrite elements_cons_slash. f_equal. now apply elements_join_slash.
Qed.

Lemma is_kept_no_slash l :
  Forall (fun e => is_kept e = true) l -> Forall (fun e => has_slash e = false) l.
Proof.
  intros Hall. eapply Forall_impl; [exact Hall|]. cbv beta.
  intros e He. unfold is_kept in He.
  apply andb_prop in He as [_ He]. now apply negb_true_iff.
Qed.

Lemma is_kept_not_dotdot l :
  Forall (fun e => is_kept e = true) l -> existsb (String.eqb "..") l = false.
Proof.
  induction l as [|e l IH]; intros Hl; [reflexivity|].
  apply Forall_cons_1 in Hl as [He Hl]. unfold is_kept in He.
  apply andb_prop in He as [He _]. apply andb_prop in He as [_ Hdd].
  apply negb_true_iff in Hdd. cbn [existsb]. now rewrite Hdd, IH.
Qed.

(** The rooted form of kept elements is a cleaned rooted path without
    [..]. *)
Lemma rooted_form_clean l :
  Forall (fun e => is_kept e = true) l ->
  starts_with_slash (rooted_form l) = true
  /\ has_dotdot (rooted_form l) = false
  /\ path.Clean (rooted_form l) = rooted_form l.
Proof.
  intros Hl. destruct l as [|e l]; [now repeat split|].
  pose proof (elements_slashed e l (is_kept_no_slash _ Hl)) as Hel.
  split; [reflexivity|]. split.
  - unfold has_dotdot. cbn [rooted_form]. rewrite Hel.
    change (existsb (String.eqb "..") (EmptyString :: e :: l))
      with (existsb (String.eqb "..") (e :: l)).
    now apply is_kept_not_dotdot.
  - cbn [rooted_form slashed]. rewrite append_cons.
    rewrite Clean_rooted_resolve, <- join_slash_cons.
    rewrite (elements_join_slash (e :: l)); [|discriminate|].
    + rewrite (resolve_kept_elements [] _ Hl). cbn [app rooted_form slashed].
      now rewrite append_cons, join_slash_cons.
    + now apply is_kept_no_slash.
Qed.

(** ** The request paths, for every remote path *)

Lemma Join_secureFileBasePath_resolve p :
  path.Join [secureFileBasePath; p]
    = rooted_form (resolve ["v1"; "secure-file"] (elements p)).
Proof.
  rewrite Join_secureFileBasePath. cbv zeta.
  change secureFileBasePath with (rooted_form ["v1"; "secure-file"]).
  rewrite (proj1 (clean_loop_resolve _ p (Nat.le_refl _)));
    [now rewrite rooted_form_nonempty|].
  repeat constructor; discriminate.
Qed.

Lemma Join_secureFileListBasePath p :
  path.Join [secureFileListBasePath; p]
    = let out := path.clean_loop true p secureFileListBasePath 1 in
      if (String.length out =? 0)%nat then "." else out.
Proof. reflexivity. Qed.

Lemma Join_secureFileListBasePath_resolve p :
  path.Join [secureFileListBasePath; p]
    = rooted_form (resolve ["v1"; "secure-files"] (elements p)).
Proof.
  rewrite Join_secureFileListBasePath. cbv zeta.
  change secureFileListBasePath with (rooted_form ["v1"; "secure-files"]).
  rewrite (proj1 (clean_loop_resolve _ p (Nat.le_refl _)));
    [now rewrite rooted_form_nonempty|].
  repeat constructor; discriminate.
Qed.

(** The join of a rooted directory and a name. *)
Lemma Join_rooted_directory d n :
  filepath.Join [String slash d; n]
    = rooted_form (resolve [] (elements d ++ elements n)).
Proof.
  unfold filepath.Join. cbn [path.Join].
  change (String.eqb (String slash d) EmptyString) with false. cbn iota.
  change (path.join_slash [String slash d; n])
    with (String slash (d ++ String slash n)).
  now rewrite Clean_rooted_resolve, elements_append.
Qed.

Section RequestPaths.

Variable DoRequest : string -> string -> gmap string string -> result Response.
Variable parseResponse : Stream -> result SecureFilesResponse.
Variable mime_ParseMediaType : string -> result (string * gmap string string).
Variable os_Create_error : gmap string Stream -> string -> option string.

Local Abbreviation Get := (Get DoRequest mime_ParseMediaType os_Create_error).
Local Abbreviation List := (List DoRequest parseResponse).

Lemma List_world rootpath w :
  snd (List rootpath w)
    = record_call
        (CallDoRequest MethodGet (path.Join [secureFileListBasePath; rootpath]) ∅)
        w.
Proof.
  unfold List. destruct (DoRequest _ _ _) as [resp|err]; [|reflexivity].
  destruct (negb _); [reflexivity|]. now destruct (parseResponse _).
Qed.

(** X10. For every remote path, [..] elements included, the one call of
    [Get] asks for the rooted path of the elements that [v1],
    [secure-file] and then the elements of the remote path resolve to:
    empty and single-dot elements dropped, each [..] taking back the
    element before it, down to the root. *)
Theorem Get_request_path_resolves_elements p dir w :
  calls (snd (Get p dir w))
    = (calls w
       ++ [CallDoRequest MethodGet
             (rooted_form (resolve ["v1"; "secure-file"] (elements p))) ∅])%list.
Proof. now rewrite Get_calls, Join_secureFileBasePath_resolve. Qed.

(** X11. Whatever the remote path, the path [Get] hands to the transport
    is a cleaned absolute path: it starts with a slash, none of its
    elements is [..], and [path.Clean] leaves it as it is. *)
Theorem Get_request_path_is_clean p dir w :
  exists url,
    calls (snd (Get p dir w))
      = (calls w ++ [CallDoRequest MethodGet url ∅])%list
    /\ starts_with_slash url = true
    /\ has_dotdot url = false
    /\ path.Clean url = url.
Proof.
  exists (path.Join [secureFileBasePath; p]). split; [apply Get_calls|].
  rewrite Join_secureFileBasePath_resolve. apply rooted_form_clean.
  apply resolve_kept; [now repeat constructor|apply elements_no_slash].
Qed.

(** X12. A remote path without [..] keeps the request below the base
    route of a single file, but [..] elements lead out of it: the remote
    path [../secure-files/] followed by [r] makes [Get] send the very
    request that [List] sends for the root path [r]. *)
Theorem Get_parent_element_reaches_listing p r dir w :
  (has_dotdot p = false ->
   String.prefix secureFileBasePath (path.Join [secureFileBasePath; p]) = true)
  /\ calls (snd (Get ("../secure-files/" ++ r) dir w))
     = calls (snd (List r w)).
Proof.
  split.
  - intros Hdd. rewrite (Join_secureFileBasePath_elements _ Hdd).
    apply prefix_append.
  - rewrite Get_calls, List_world. cbn [calls record_call].
    rewrite Join_secureFileBasePath_resolve, Join_secureFileListBasePath_resolve.
    change ("../secure-files/" ++ r)
      with (".." ++ String slash ("secure-files" ++ String slash r)).
    rewrite !elements_append, !resolve_app. reflexivity.
Qed.

(** X13. Remote paths that [Get] cannot tell apart: a doubled slash
    counts as one, a single-dot element and a trailing slash count for
    nothing, and an element followed by [..] cancels, wherever they
    stand and whatever else the path holds. *)
Theorem Get_remote_path_normal_forms a b x dir w :
  calls (snd (Get (a ++ "//" ++ b) dir w))
    = calls (snd (Get (a ++ "/" ++ b) dir w))
  /\ calls (snd (Get (a ++ "/./" ++ b) dir w))
     = calls (snd (Get (a ++ "/" ++ b) dir w))
  /\ calls (snd (Get (a ++ "/") dir w)) = calls (snd (Get a dir w))
  /\ (is_kept x = true ->
      calls (snd (Get (a ++ "/" ++ x ++ "/../" ++ b) dir w))
        = calls (snd (Get (a ++ "/" ++ b) dir w))).
Proof.
  rewrite !Get_calls, !Join_secureFileBasePath_resolve.
  change (a ++ "//" ++ b) with (a ++ String slash (String slash b)).
  change (a ++ "/./" ++ b) with (a ++ String slash ("." ++ String slash b)).
  change (a ++ "/" ++ b) with (a ++ String slash b).
  change (a ++ "/") with (a ++ String slash EmptyString).
  rewrite !elements_append, !resolve_app, elements_cons_slash.
  repeat split.
  - intros Hx.
    change (a ++ "/" ++ x ++ "/../" ++ b)
      with (a ++ String slash (x ++ String slash (".." ++ String slash b))).
    rewrite !elements_append, !resolve_app.
    unfold is_kept in Hx. apply andb_prop in Hx as [Hx Hslash].
    apply andb_prop in Hx as [Hreal Hdd].
    apply negb_true_iff in Hslash, Hdd.
    rewrite (elements_plain _ Hslash). change (elements "..") with [".."].
    cbn [resolve].
    rewrite Hreal, Hdd. cbn [negb].
    change (is_real "..") with true. change (String.eqb ".." "..") with true.
    cbn [negb]. now rewrite removelast_last.
Qed.

(** X14. [List] leaves the local files as they are and calls the
    transport once, with a GET of the rooted path that [v1],
    [secure-files] and the elements of the root path resolve to; two root
    paths that resolve alike give the same result and the same world. *)
Theorem List_root_path_resolved rootpath rootpath' w :
  snd (List rootpath w)
    = record_call
        (CallDoRequest MethodGet
           (rooted_form (resolve ["v1"; "secure-files"] (elements rootpath))) ∅)
        w
  /\ (resolve ["v1"; "secure-files"] (elements rootpath)
      = resolve ["v1"; "secure-files"] (elements rootpath') ->
      List rootpath w = List rootpath' w).
Proof.
  split.
  - now rewrite List_world, Join_secureFileListBasePath_resolve.
  - intros Hsame. unfold List.
    now rewrite !Join_secureFileListBasePath_resolve, Hsame.
Qed.

(** X15. Into an absolute local directory, [Get] writes the file at the
    rooted path that the elements of the directory and then those of the
    file name of the header resolve to. When no element of that name is
    [..], these are the elements of the cleaned directory followed by the
    real elements of the name: the file is in the directory or below
    it. *)
Theorem Get_target_in_absolute_directory p d w resp mt params N :
  DoRequest MethodGet (path.Join [secureFileBasePath; p]) ∅ = Ok resp ->
  StatusCode resp = StatusOK ->
  mime_ParseMediaType (Header_Get (Header resp) "Content-Disposition")
    = Ok (mt, params) ->
  params !! "filename" = Some N ->
  os_Create_error (files w) (filepath.Join [String slash d; N]) = None ->
  files (snd (Get p (String slash d) w))
    = <[rooted_form (resolve [] (elements d ++ elements N))
          := mkStream (data (Body resp)) None]> (files w)
  /\ path.Clean (String slash d) = rooted_form (resolve [] (elements d))
  /\ (has_dotdot N = false ->
      resolve [] (elements d ++ elements N)
        = (resolve [] (elements d) ++ real_elements N)%list).
Proof.
  intros Hresp Hcode Hparse HN Hcreate.
  rewrite (Get_named _ _ _ p _ w resp mt params N Hresp Hcode Hparse HN).
  cbv zeta. rewrite Hcreate. cbn [snd files write_file record_call].
  rewrite Join_rooted_directory. split; [reflexivity|].
  split; [apply Clean_rooted_resolve|].
  intros Hdd. rewrite resolve_app. now apply resolve_without_dotdot.
Qed.

End RequestPaths.

(** A name with a sub-directory and a doubled slash, into the temporary
    directory of the tests. *)
Lemma Get_target_in_absolute_directory_witness :
  files (snd (Get (Fixture.binaryTestServer 200 "sub//hello.txt" "hello world")
                Fixture.ParseMediaType Fixture.permissive
                "/test/file/hello.txt" (String slash "tmp/testing")
                Fixture.empty_world))
    = <[rooted_form (resolve [] (elements "tmp/testing"
                                   ++ elements "sub//hello.txt"))
          := mkStream "hello world" None]> ∅
  /\ path.Clean (String slash "tmp/testing")
     = rooted_form (resolve [] (elements "tmp/testing"))
  /\ (has_dotdot "sub//hello.txt" = false ->
      resolve [] (elements "tmp/testing" ++ elements "sub//hello.txt")
        = (resolve [] (elements "tmp/testing")
           ++ real_elements "sub//hello.txt")%list).
Proof.
  apply (Get_target_in_absolute_directory
           (Fixture.binaryTestServer 200 "sub//hello.txt" "hello world")
           Fixture.ParseMediaType Fixture.permissive
           "/test/file/hello.txt" "tmp/testing" Fixture.empty_world
           (mkResponse 200
              {[ "Content-Type" := ["application/octet-stream"];
                 "Content-Disposition" := [Fixture.attachment "sub//hello.txt"] ]}
              (mkStream "hello world" None))
           "attachment" {[ "filename" := "sub//hello.txt" ]} "sub//hello.txt").
  - reflexivity.
  - reflexivity.
  - vm_compute. reflexivity.
  - vm_compute. reflexivity.
  - reflexivity.
Defined.

Example Get_target_with_subdirectory :
  rooted_form (resolve [] (elements "tmp/testing" ++ elements "sub//hello.txt"))
    = "/tmp/testing/sub/hello.txt".
Proof. reflexivity. Qed.

Example Get_reaches_listing :
  path.Join [secureFileBasePath; "../secure-files/app"] = "/v1/secure-files/app".
Proof. reflexivity. Qed.

(** * The upload: path, file name, and a download sent back *)

Lemma strip_trailing_slashes_slash p :
  filepath.strip_trailing_slashes (p ++ "/") = filepath.strip_trailing_slashes p.
Proof.
  induction p as [|c p IH]; [reflexivity|].
  rewrite append_cons. cbn [filepath.strip_trailing_slashes]. now rewrite IH.
Qed.

(** X16. [filepath.Base], as the upload uses it: the result is never the
    empty string; a trailing slash on a non-empty path changes nothing; a
    non-empty path without a slash is its own base name; and the base name
    of a plain name below any directory is that name. *)
Theorem Base_of_local_path p dir name :
  filepath.Base p <> EmptyString
  /\ (p <> EmptyString -> filepath.Base (p ++ "/") = filepath.Base p)
  /\ (p <> EmptyString -> has_slash p = false -> filepath.Base p = p)
  /\ (name <> EmptyString -> has_slash name = false ->
      filepath.Base (dir ++ "/" ++ name) = name).
Proof.
  split; [|split; [|split]].
  - unfold filepath.Base. destruct (String.eqb p EmptyString); [discriminate|].
    destruct (String.eqb _ EmptyString) eqn:He; [discriminate|].
    now apply String.eqb_neq in He.
  - intros Hp. unfold filepath.Base. rewrite strip_trailing_slashes_slash.
    apply String.eqb_neq in Hp. rewrite Hp.
    assert (String.eqb (p ++ "/") EmptyString = false) as ->; [|reflexivity].
    apply String.eqb_neq. destruct p; discriminate.
  - intros Hp Hslash. unfold filepath.Base.
    rewrite (strip_trailing_slashes_plain _ Hslash).
    rewrite (last_element_plain _ _ Hslash), append_nil_l.
    apply String.eqb_neq in Hp. now rewrite Hp.
  - apply Base_strips_directory.
Qed.


Section UploadMore.

Variable DoRequest : string -> string -> gmap string string -> result Response.
Variable DoRequestWithBody :
  string -> string -> gmap string string -> string -> string -> result Response.
Variable mime_ParseMediaType : string -> result (string * gmap string string).
Variable os_Create_error : gmap string Stream -> string -> option string.
Variable randomBoundary : string.

Local Abbreviation Get := (Get DoRequest mime_ParseMediaType os_Create_error).
Local Abbreviation Put := (Put DoRequestWithBody randomBoundary).
Local Abbreviation formType :=
  ("multipart/form-data; boundary=" ++ randomBoundary).

Lemma Put_calls_of_readable_file p localfile w f :
  files w !! localfile = Some f ->
  fault f = None ->
  calls (snd (Put p localfile w))
    = (calls w
       ++ [CallDoRequestWithBody MethodPost
             (path.Join [secureFileBasePath; p]) ∅ formType
             (encode_form randomBoundary
                [mkFormFile "file-content" (filepath.Base localfile) (data f)])])%list.
Proof.
  intros Hf Hfault. unfold Put.
  rewrite (getUploadFileBodyWriter_ok _ _ _ _ Hf Hfault).
  destruct (DoRequestWithBody _ _ _ _ _) as [resp|e]; [|reflexivity].
  destruct (negb _); reflexivity.
Qed.

(** X18. For every remote path, [..] elements included, [Put] of a local
    file that opens and reads to its end posts to the rooted path that
    [v1], [secure-file] and the elements of the remote path resolve to: a
    cleaned absolute path without [..], the one [Get] asks for with the
    same remote path. *)
Theorem Put_request_path_resolves_elements p localfile w f :
  files w !! localfile = Some f ->
  fault f = None ->
  exists url body,
    calls (snd (Put p localfile w))
      = (calls w
         ++ [CallDoRequestWithBody MethodPost url ∅ formType body])%list
    /\ url = rooted_form (resolve ["v1"; "secure-file"] (elements p))
    /\ has_dotdot url = false
    /\ path.Clean url = url
    /\ forall dir,
         calls (snd (Get p dir w))
           = (calls w ++ [CallDoRequest MethodGet url ∅])%list.
Proof.
  intros Hf Hfault. eexists; eexists.
  split; [apply (Put_calls_of_readable_file _ _ _ _ Hf Hfault)|].
  split; [apply Join_secureFileBasePath_resolve|].
  rewrite Join_secureFileBasePath_resolve.
  assert (Hkept : Forall (fun e => is_kept e = true)
                    (resolve ["v1"; "secure-file"] (elements p)))
    by (apply resolve_kept; [now repeat constructor|apply elements_no_slash]).
  destruct (rooted_form_clean _ Hkept) as [_ [Hdd Hclean]].
  repeat split; [assumption|assumption|].
  intros dir. now rewrite Get_calls, Join_secureFileBasePath_resolve.
Qed.


End UploadMore.

(** The secret of the tests' world, posted to a path with a [..]. *)
Lemma Put_request_path_resolves_elements_witness :
  exists url body,
    calls (snd (Put (Fixture.uploadServer 204) Fixture.boundary
                  "app/../sdb//secret.txt" "/home/me/secret.txt"
                  Fixture.secret_world))
      = [CallDoRequestWithBody MethodPost url ∅
           ("multipart/form-data; boundary=" ++ Fixture.boundary) body]
    /\ url = rooted_form (resolve ["v1"; "secure-file"]
                            (elements "app/../sdb//secret.txt"))
    /\ has_dotdot url = false
    /\ path.Clean url = url
    /\ forall dir,
         calls (snd (Get (Fixture.plainServer 500) Fixture.ParseMediaType
                       Fixture.permissive "app/../sdb//secret.txt" dir
                       Fixture.secret_world))
           = [CallDoRequest MethodGet url ∅].
Proof.
  apply (Put_request_path_resolves_elements (Fixture.plainServer 500)
           (Fixture.uploadServer 204) Fixture.ParseMediaType Fixture.permissive
           Fixture.boundary "app/../sdb//secret.txt" "/home/me/secret.txt"
           Fixture.secret_world (mkStream "s3cr3t" None)).
  - vm_compute. reflexivity.
  - reflexivity.
Defined.

Example Put_request_path_with_parent_element :
  rooted_form (resolve ["v1"; "secure-file"] (elements "app/../sdb//secret.txt"))
    = "/v1/secure-file/sdb/secret.txt".
Proof. reflexivity. Qed.

